(** * IMSCC to Google Form converter: a shallow embedding of [Code.js]

    The development models the parts of the Apps Script program that
    build the extracted folder tree, locate the manifest and the quiz
    body, normalise QTI items of both schemas and decide whether a form
    becomes a graded quiz.  Host services (Drive, XmlService, FormApp,
    Utilities) are modelled by the data they hold and by the documented
    behaviour of the calls the program makes. *)

From Stdlib Require Import String Ascii List Arith Lia.
From stdpp Require Import base option list strings gmap.

Local Set Warnings "-register-all".

(** ** JavaScript strings *)

Module Js.

(** [s.startsWith(p)]. *)
Fixpoint startsWith (s p : string) : bool :=
  match p, s with
  | EmptyString, _ => true
  | String _ _, EmptyString => false
  | String b p', String a s' => bool_decide (a = b) && startsWith s' p'
  end.

(** [s.endsWith(suffix)], by comparing the reversed strings from the
    front. *)
Definition endsWith (s suffix : string) : bool :=
  startsWith (String.rev s) (String.rev suffix).

(** [s.includes(sub)]: some position of [s] starts with [sub]. *)
Fixpoint includes (s sub : string) : bool :=
  startsWith s sub ||
  match s with
  | EmptyString => false
  | String _ s' => includes s' sub
  end.

(** [s.split(sep)] for a one-character separator; the empty string
    splits into one empty segment, as in JavaScript. *)
Fixpoint split (sep : ascii) (s : string) : list string :=
  match s with
  | EmptyString => [EmptyString]
  | String c s' =>
      if bool_decide (c = sep) then EmptyString :: split sep s'
      else match split sep s' with
           | [] => [String c EmptyString]
           | seg :: segs => String c seg :: segs
           end
  end.

(** The white space and line terminators [trim] strips that take two or
    three bytes in UTF-8, the encoding the strings of this development
    are in: U+00A0; U+1680, U+2000 to U+200A, U+2028, U+2029, U+202F,
    U+205F, U+3000 and U+FEFF. *)
Definition isSpace2 (a b : ascii) : bool :=
  (nat_of_ascii a =? 194) && (nat_of_ascii b =? 160).

Definition isSpace3 (a b c : ascii) : bool :=
  let x := nat_of_ascii a in
  let y := nat_of_ascii b in
  let z := nat_of_ascii c in
  (x =? 225) && (y =? 154) && (z =? 128)
  || (x =? 226) && (y =? 128)
     && ((128 <=? z) && (z <=? 138) || (z =? 168) || (z =? 169) || (z =? 175))
  || (x =? 226) && (y =? 129) && (z =? 159)
  || (x =? 227) && (y =? 128) && (z =? 128)
  || (x =? 239) && (y =? 187) && (z =? 191).

(** [s.trim() === '']: the text holds nothing but white space and line
    terminators, the one-byte ones (tab, line feed, vertical tab, form
    feed, carriage return, space) and those above. *)
Fixpoint isBlank (s : string) : bool :=
  match s with
  | EmptyString => true
  | String c1 s1 =>
      if Ascii.is_space c1 then isBlank s1
      else
        match s1 with
        | EmptyString => false
        | String c2 s2 =>
            if isSpace2 c1 c2 then isBlank s2
            else
              match s2 with
              | EmptyString => false
              | String c3 s3 => if isSpace3 c1 c2 c3 then isBlank s3 else false
              end
        end
  end.

(** Truthiness of a string value. *)
Definition truthy (s : string) : bool := negb (bool_decide (s = "")).

End Js.

(** ** XmlService elements *)

(** An element has a namespace URI (empty for no namespace), a local
    name, attributes and ordered content made of text and elements. *)
Inductive Element : Type :=
  mkElement (ns name : string) (attrs : list (string * string))
            (content : list (string + Element)).

Definition ens (e : Element) : string := let 'mkElement n _ _ _ := e in n.
Definition ename (e : Element) : string := let 'mkElement _ n _ _ := e in n.
Definition eattrs (e : Element) : list (string * string) :=
  let 'mkElement _ _ a _ := e in a.
Definition econtent (e : Element) : list (string + Element) :=
  let 'mkElement _ _ _ c := e in c.

Module Xml.

Definition childElements (e : Element) : list Element :=
  omap (λ c, match c with inr x => Some x | inl _ => None end) (econtent e).

(** [e.getChildren(name)]: the child elements with that local name and
    no namespace, in document order. *)
Definition getChildren (name : string) (e : Element) : list Element :=
  filter (λ c, ename c = name ∧ ens c = "") (childElements e).

(** [e.getChild(name)]: the first such child, or null. *)
Definition getChild (name : string) (e : Element) : option Element :=
  head (getChildren name e).

(** [e.getText()]: the text directly held by the element; child
    elements are not entered. *)
Definition getText (e : Element) : string :=
  foldr String.append ""
    (omap (λ c, match c with inl t => Some t | inr _ => None end) (econtent e)).

(** [e.getChildText(name)]: null when there is no such child. *)
Definition getChildText (name : string) (e : Element) : option string :=
  getText <$> getChild name e.

(** [e.getAttribute(name)] followed by [getValue()]. *)
Definition getAttribute (name : string) (e : Element) : option string :=
  snd <$> head (filter (λ kv, kv.1 = name) (eattrs e)).

(** Builders for documents in no namespace. *)
Definition el (name : string) (attrs : list (string * string))
           (children : list Element) : Element :=
  mkElement "" name attrs (inr <$> children).
Definition leaf (name text : string) : Element :=
  mkElement "" name [] [inl text].

End Xml.

(** ** Completions: a statement either finishes or throws *)

Inductive Completion (A : Type) : Type :=
  | Normal (a : A)
  | Throw (msg : string).
Arguments Normal {A} a.
Arguments Throw {A} msg.

Definition bindC {A B} (c : Completion A) (k : A → Completion B) : Completion B :=
  match c with
  | Normal a => k a
  | Throw m => Throw m
  end.

Notation "'let!' x ':=' c 'in' k" := (bindC c (λ x, k))
  (at level 10, x name, c at level 100, k at level 200, only parsing).

(** A [for ... of] loop whose body may throw. *)
Fixpoint forOf {A S} (body : S → A → Completion S) (l : list A) (s : S)
  : Completion S :=
  match l with
  | [] => Normal s
  | x :: l' => let! s' := body s x in forOf body l' s'
  end.

(** [try { return body } catch (e) { return null }]. *)
Definition catchNull {A} (c : Completion A) : option A :=
  match c with
  | Normal a => Some a
  | Throw _ => None
  end.

(** ** The normalised question model *)

(** The values the [correctAnswer] property takes. *)
Inductive Answer : Type :=
  | AUndefined
  | ANull
  | AString (s : string)
  | AArray (l : list string).

Global Instance Answer_eq_dec : EqDecision Answer.
Proof. solve_decision. Defined.

Definition answerTruthy (a : Answer) : bool :=
  match a with
  | AUndefined | ANull => false
  | AString s => Js.truthy s
  | AArray _ => true
  end.

Record Choice : Type := mkChoice { c_id : string; c_text : string }.

Record Question : Type := mkQuestion {
  q_id : string;
  q_title : string;
  q_type : string;
  q_text : string;
  q_choices : list Choice;
  q_correctAnswer : Answer;
  q_points : nat
}.

Definition set_type (v : string) (q : Question) : Question :=
  mkQuestion (q_id q) (q_title q) v (q_text q) (q_choices q)
             (q_correctAnswer q) (q_points q).
Definition set_text (v : string) (q : Question) : Question :=
  mkQuestion (q_id q) (q_title q) (q_type q) v (q_choices q)
             (q_correctAnswer q) (q_points q).
Definition push_choice (c : Choice) (q : Question) : Question :=
  mkQuestion (q_id q) (q_title q) (q_type q) (q_text q) (q_choices q ++ [c])
             (q_correctAnswer q) (q_points q).
Definition set_correctAnswer (v : Answer) (q : Question) : Question :=
  mkQuestion (q_id q) (q_title q) (q_type q) (q_text q) (q_choices q)
             v (q_points q).

(** [question.correctAnswer.push(v)]: only an array has [push]. *)
Definition push_correctAnswer (v : string) (q : Question) : Completion Question :=
  match q_correctAnswer q with
  | AArray l => Normal (set_correctAnswer (AArray (l ++ [v])) q)
  | _ => Throw "question.correctAnswer.push is not a function"
  end.

(** ** Item normalisers *)

Section Parsers.

(** [Utilities.getUuid()] is a host call: its [n]-th invocation yields
    an identifier, or throws.  It is the only call of the normalisers
    that can throw, and the number of invocations made so far is the
    only state they thread. *)
Variable getUuid : nat → option string.

Definition Utilities_getUuid (n : nat) : Completion string * nat :=
  (match getUuid n with
   | Some u => Normal u
   | None => Throw "Utilities.getUuid failed"
   end, S n).

(** [attr ? attr.getValue() : Utilities.getUuid()]. *)
Definition idOrUuid (attr : option string) (n : nat) : Completion string * nat :=
  match attr with
  | Some v => (Normal v, n)
  | None => Utilities_getUuid n
  end.

(** *** Legacy items (QTI 1.2) *)

(** Body of the loop over [qtimetadatafield] elements. *)
Definition v1TypeField (q : Question) (field : Element) : Question :=
  match Xml.getChildText "fieldlabel" field, Xml.getChildText "fieldentry" field with
  | Some label, Some entry =>
      if bool_decide (label = "question_type") && Js.truthy entry
      then set_type entry q else q
  | _, _ => q
  end.

(** The question type, from the metadata of the item. *)
Definition v1Type (item : Element) (q : Question) : Question :=
  match Xml.getChild "itemmetadata" item with
  | Some itemmetadata =>
      match Xml.getChild "qtimetadata" itemmetadata with
      | Some qtimetadata =>
          foldl v1TypeField q (Xml.getChildren "qtimetadatafield" qtimetadata)
      | None => q
      end
  | None => q
  end.

(** The question text, from [presentation/material/mattext]. *)
Definition v1Text (item : Element) (q : Question) : Question :=
  match Xml.getChild "presentation" item with
  | Some presentation =>
      match Xml.getChild "material" presentation with
      | Some material =>
          match Xml.getChild "mattext" material with
          | Some mattext => set_text (Xml.getText mattext) q
          | None => q
          end
      | None => q
      end
  | None => q
  end.

(** Body of the loop over [response_label] elements; every [continue]
    leaves the question as it is. *)
Definition v1ChoiceLabel (q : Question) (responseLabel : Element) : Question :=
  match Xml.getAttribute "ident" responseLabel with
  | None => q
  | Some ident =>
      match Xml.getChild "material" responseLabel with
      | None => q
      | Some material =>
          match Xml.getChild "mattext" material with
          | None => q
          | Some mattext => push_choice (mkChoice ident (Xml.getText mattext)) q
          end
      end
  end.

(** The choices, from [presentation/render_choice]. *)
Definition v1Choices (item : Element) (q : Question) : Question :=
  match Xml.getChild "presentation" item with
  | Some presentation =>
      match Xml.getChild "render_choice" presentation with
      | Some renderChoice =>
          foldl v1ChoiceLabel q (Xml.getChildren "response_label" renderChoice)
      | None => q
      end
  | None => q
  end.

(** Body of the loop over [respcondition] elements. *)
Definition v1Respcondition (q : Question) (respcondition : Element)
  : Completion Question :=
  match Xml.getChild "conditionvar" respcondition with
  | None => Normal q
  | Some conditionvar =>
      match Xml.getChild "varequal" conditionvar with
      | None => Normal q
      | Some varequal =>
          let correctAnswerId := Xml.getText varequal in
          if bool_decide (q_type q = "multiple_choice_question") then
            Normal (set_correctAnswer (AString correctAnswerId) q)
          else if bool_decide (q_type q = "multiple_answers_question") then
            push_correctAnswer correctAnswerId
              (if answerTruthy (q_correctAnswer q) then q
               else set_correctAnswer (AArray []) q)
          else Normal q
      end
  end.

(** The correct answer, from [resprocessing]. *)
Definition v1CorrectAnswer (item : Element) (q : Question) : Completion Question :=
  match Xml.getChild "resprocessing" item with
  | Some resprocessing =>
      forOf v1Respcondition (Xml.getChildren "respcondition" resprocessing) q
  | None => Normal q
  end.

(** The statements of [parseQtiv1Item] after the question object has
    been created with identifier [id]. *)
Definition v1Body (item : Element) (id : string) : Completion Question :=
  let question :=
    mkQuestion id (default "" (Xml.getAttribute "title" item)) "" "" [] ANull 1 in
  v1CorrectAnswer item (v1Choices item (v1Text item (v1Type item question))).

(** [parseQtiv1Item]: the question, or null when the body threw, and
    the number of identifier requests made so far. *)
Definition parseQtiv1Item (item : Element) (n : nat) : option Question * nat :=
  let '(id, n') := idOrUuid (Xml.getAttribute "ident" item) n in
  (catchNull (let! i := id in v1Body item i), n').

(** *** Modern items (QTI 2.1) *)

(** The type, from the interaction element the body holds. *)
Definition v2Type (itemBody : Element) (q : Question) : Question :=
  if bool_decide (is_Some (Xml.getChild "choiceInteraction" itemBody)) then
    set_type "multiple_choice_question" q
  else if bool_decide (is_Some (Xml.getChild "extendedTextInteraction" itemBody)) then
    set_type "essay_question" q
  else if bool_decide (is_Some (Xml.getChild "textEntryInteraction" itemBody)) then
    set_type "short_answer_question" q
  else q.

(** The question text, from [prompt]. *)
Definition v2Text (itemBody : Element) (q : Question) : Question :=
  match Xml.getChild "prompt" itemBody with
  | Some promptElement => set_text (Xml.getText promptElement) q
  | None => q
  end.

(** Body of the loop over [simpleChoice] elements. *)
Definition v2SimpleChoice (q : Question) (choice : Element) : Question :=
  match Xml.getAttribute "identifier" choice with
  | None => q
  | Some identifier => push_choice (mkChoice identifier (Xml.getText choice)) q
  end.

(** The choices of a choice interaction. *)
Definition v2Choices (itemBody : Element) (q : Question) : Question :=
  match Xml.getChild "choiceInteraction" itemBody with
  | Some choiceInteraction =>
      foldl v2SimpleChoice q (Xml.getChildren "simpleChoice" choiceInteraction)
  | None => q
  end.

(** The block guarded by [if (itemBody)]. *)
Definition v2ItemBody (item : Element) (q : Question) : Question :=
  match Xml.getChild "itemBody" item with
  | Some itemBody => v2Choices itemBody (v2Text itemBody (v2Type itemBody q))
  | None => q
  end.

(** The correct answer, from [responseDeclaration/correctResponse]:
    a string for one [value], the array of texts for several. *)
Definition v2CorrectAnswer (item : Element) (q : Question) : Question :=
  match Xml.getChild "responseDeclaration" item with
  | Some responseDeclaration =>
      match Xml.getChild "correctResponse" responseDeclaration with
      | Some correctResponse =>
          match Xml.getChildren "value" correctResponse with
          | [] => q
          | [v] => set_correctAnswer (AString (Xml.getText v)) q
          | values => set_correctAnswer (AArray (Xml.getText <$> values)) q
          end
      | None => q
      end
  | None => q
  end.

(** The statements of [parseQtiv2Item] after the question object has
    been created with identifier [id]. *)
Definition v2Body (item : Element) (id : string) : Completion Question :=
  let question :=
    mkQuestion id (default "" (Xml.getAttribute "title" item)) "" "" [] ANull 1 in
  Normal (v2CorrectAnswer item (v2ItemBody item question)).

(** [parseQtiv2Item], with the same result shape as [parseQtiv1Item]. *)
Definition parseQtiv2Item (item : Element) (n : nat) : option Question * nat :=
  let '(id, n') := idOrUuid (Xml.getAttribute "identifier" item) n in
  (catchNull (let! i := id in v2Body item i), n').

End Parsers.

(** ** Quiz bodies *)

(** The quiz object built from a manifest [resource] element. *)
Record Resource : Type := mkResource {
  r_identifier : string;
  r_href : string;
  r_files : list string;
  r_title : string
}.

(** The parsed content of one quiz. *)
Record QuizContent : Type := mkQuizContent {
  qc_title : string;
  qc_description : string;
  qc_questions : list Question
}.

Definition placeholder (quiz : Resource) : QuizContent :=
  mkQuizContent (r_title quiz) "" [].

Section QuizParsers.

Variable getUuid : nat → option string.

(** Body of the loop over the [qtimetadatafield] elements of the
    assessment: the description is assigned, and the loop goes on. *)
Definition v1DescriptionField (description : string) (field : Element) : string :=
  match Xml.getChildText "fieldlabel" field, Xml.getChildText "fieldentry" field with
  | Some label, Some entry =>
      if bool_decide (label = "qmd_description") && Js.truthy entry
      then entry else description
  | _, _ => description
  end.

(** The quiz description, from the metadata of the assessment. *)
Definition v1Description (assessment : Element) (description : string) : string :=
  match Xml.getChild "qtimetadata" assessment with
  | Some metadata =>
      foldl v1DescriptionField description
            (Xml.getChildren "qtimetadatafield" metadata)
  | None => description
  end.

(** [const question = parseQtiv1Item(item);
     if (question) result.questions.push(question);] *)
Definition v1PushItem (st : list Question * nat) (item : Element)
  : list Question * nat :=
  let '(question, n') := parseQtiv1Item getUuid item st.2 in
  match question with
  | Some q => (st.1 ++ [q], n')
  | None => (st.1, n')
  end.

(** Body of the loop over the [section] elements. *)
Definition v1PushSection (st : list Question * nat) (section : Element)
  : list Question * nat :=
  foldl v1PushItem st (Xml.getChildren "item" section).

(** [parseQtiv1Quiz]: the normaliser catches what it throws, so no
    statement of the body reaches the [catch] of this function. *)
Definition parseQtiv1Quiz (root : Element) (quiz : Resource) (n : nat)
  : QuizContent * nat :=
  match Xml.getChild "assessment" root with
  | None => (placeholder quiz, n)
  | Some assessment =>
      let title := default (r_title quiz) (Xml.getAttribute "title" assessment) in
      let description := v1Description assessment "" in
      let st1 := foldl v1PushItem ([], n) (Xml.getChildren "item" assessment) in
      let st2 := foldl v1PushSection st1 (Xml.getChildren "section" assessment) in
      (mkQuizContent title description st2.1, st2.2)
  end.

(** The same step for the items of a modern quiz. *)
Definition v2PushItem (st : list Question * nat) (item : Element)
  : list Question * nat :=
  let '(question, n') := parseQtiv2Item getUuid item st.2 in
  match question with
  | Some q => (st.1 ++ [q], n')
  | None => (st.1, n')
  end.

(** [parseQtiv2Quiz]: the items are the [item] children of the root. *)
Definition parseQtiv2Quiz (root : Element) (quiz : Resource) (n : nat)
  : QuizContent * nat :=
  let title := default (r_title quiz) (Xml.getAttribute "title" root) in
  let st := foldl v2PushItem ([], n) (Xml.getChildren "item" root) in
  (mkQuizContent title "" st.1, st.2).

(** Dispatch on the name of the root element of the document. *)
Definition parseQuizXml (root : Element) (quiz : Resource) (n : nat)
  : QuizContent * nat :=
  if bool_decide (ename root = "questestinterop") then parseQtiv1Quiz root quiz n
  else if bool_decide (ename root = "assessment") then parseQtiv2Quiz root quiz n
  else (placeholder quiz, n).

End QuizParsers.

(** ** The Drive folder tree *)

(** A blob of the unzipped archive: its name is the entry path. *)
Record Blob : Type := mkBlob { b_name : string; b_data : string }.

Record File : Type := mkFile { f_name : string; f_data : string }.

(** A folder holds files and folders; Drive allows several children of
    one name, so both are lists. *)
Inductive Folder : Type :=
  mkFolder (name : string) (files : list File) (folders : list Folder).

Definition d_name (d : Folder) : string := let 'mkFolder n _ _ := d in n.

Module Drive.

Definition getFiles (d : Folder) : list File := let 'mkFolder _ fs _ := d in fs.
Definition getFolders (d : Folder) : list Folder := let 'mkFolder _ _ ds := d in ds.

(** [folder.getFilesByName(name)]: the files that are children of this
    folder and have the name. *)
Definition getFilesByName (name : string) (d : Folder) : list File :=
  filter (λ f, f_name f = name) (getFiles d).

(** [folder.getFoldersByName(name)]: likewise for child folders. *)
Definition getFoldersByName (name : string) (d : Folder) : list Folder :=
  filter (λ s, d_name s = name) (getFolders d).

(** [folder.createFile(blob)]: the new file takes the name and the
    data of the blob. *)
Definition fileOfBlob (blob : Blob) : File := mkFile (b_name blob) (b_data blob).
Definition createFile (blob : Blob) (d : Folder) : Folder :=
  mkFolder (d_name d) (getFiles d ++ [fileOfBlob blob]) (getFolders d).

(** [folder.createFolder(name)] yields an empty child folder. *)
Definition emptyFolder (name : string) : Folder := mkFolder name [] [].

Definition withFolders (ds : list Folder) (d : Folder) : Folder :=
  mkFolder (d_name d) (getFiles d) ds.

(** A change made through the reference returned by
    [getFoldersByName(name).next()] lands in the first child folder of
    that name. *)
Fixpoint updateFirst (name : string) (f : Folder → Folder) (ds : list Folder)
  : list Folder :=
  match ds with
  | [] => []
  | d :: ds' =>
      if bool_decide (d_name d = name) then f d :: ds'
      else d :: updateFirst name f ds'
  end.

End Drive.

(** *** Extraction *)

(** The loop over the leading path segments: each non-empty segment is
    entered when a folder of that name exists, and created otherwise. *)
Fixpoint ensureFolders (dirs : list string) (currentFolder : Folder) : Folder :=
  match dirs with
  | [] => currentFolder
  | folderName :: rest =>
      if negb (Js.truthy folderName) then ensureFolders rest currentFolder
      else
        match Drive.getFoldersByName folderName currentFolder with
        | _ :: _ =>
            Drive.withFolders
              (Drive.updateFirst folderName (ensureFolders rest)
                                 (Drive.getFolders currentFolder))
              currentFolder
        | [] =>
            Drive.withFolders
              (Drive.getFolders currentFolder
                 ++ [ensureFolders rest (Drive.emptyFolder folderName)])
              currentFolder
        end
  end.

(** [currentFolder.createFile(blob)] for the folder the loop above ended
    in: the one reached from the root through the first folder of each
    non-empty segment. *)
Fixpoint createFileIn (dirs : list string) (blob : Blob) (currentFolder : Folder)
  : Folder :=
  match dirs with
  | [] => Drive.createFile blob currentFolder
  | folderName :: rest =>
      if negb (Js.truthy folderName) then createFileIn rest blob currentFolder
      else
        Drive.withFolders
          (Drive.updateFirst folderName (createFileIn rest blob)
                             (Drive.getFolders currentFolder))
          currentFolder
  end.

(** The segments [parts[0 .. parts.length - 2]]. *)
Definition leadingParts (parts : list string) : list string :=
  if bool_decide (1 < length parts) then take (length parts - 1) parts else [].

(** One round of the loop over the unzipped blobs; the state is the
    temporary folder and the array [extractedFiles]. *)
Definition extractBlob (st : Folder * list File) (extractedBlob : Blob)
  : Folder * list File :=
  if Js.endsWith (b_name extractedBlob) "/" then st
  else
    let parts := Js.split "/" (b_name extractedBlob) in
    let tempFolder := ensureFolders (leadingParts parts) st.1 in
    match last parts with
    | Some extractedFileName =>
        if Js.truthy extractedFileName then
          (createFileIn (leadingParts parts) extractedBlob tempFolder,
           st.2 ++ [Drive.fileOfBlob extractedBlob])
        else (tempFolder, st.2)
    | None => (tempFolder, st.2)
    end.

(** [extractIMSCC], from the check on the unzipped array onwards;
    [extracted] is what [Utilities.unzip] returned. *)
Definition extractIMSCC (extracted : list Blob) (tempFolder : Folder)
  : Completion (Folder * list File) :=
  match extracted with
  | [] => Throw "Failed to extract IMSCC file: Extraction produced no files, the IMSCC file may be invalid or empty"
  | _ => Normal (foldl extractBlob (tempFolder, []) extracted)
  end.

(** *** Path lookup and whole-tree listing *)

(** The navigation loop of [findFileByPath]: an empty segment is
    skipped, a missing folder ends the search. *)
Fixpoint walkFolders (dirs : list string) (currentFolder : Folder) : option Folder :=
  match dirs with
  | [] => Some currentFolder
  | folderName :: rest =>
      if negb (Js.truthy folderName) then walkFolders rest currentFolder
      else
        match Drive.getFoldersByName folderName currentFolder with
        | next :: _ => walkFolders rest next
        | [] => None
        end
  end.

Definition findFileByPath (rootFolder : Folder) (path : string) : option File :=
  if negb (Js.truthy path) then None
  else
    let parts := Js.split "/" path in
    match walkFolders (take (length parts - 1) parts) rootFolder with
    | None => None
    | Some currentFolder =>
        match last parts with
        | Some fileName =>
            if Js.truthy fileName
            then head (Drive.getFilesByName fileName currentFolder)
            else None
        | None => None
        end
    end.

(** The files of the folder, then those of each subfolder in turn. *)
Fixpoint getAllFilesInFolder (folder : Folder) : list File :=
  let 'mkFolder _ fs subs := folder in
  foldl (λ files subfolder, files ++ getAllFilesInFolder subfolder) fs subs.

(** ** Locating the manifest and the quiz body *)

Definition manifestNotFound : string := "No imsmanifest.xml found in the IMSCC file.".

Definition fallbackNotice : string :=
  "Quiz file not found through standard paths. Attempting to search all extracted files...".

(** The loop over [quiz.files], left at the first hit. *)
Fixpoint scanDeclaredFiles (tempFolder : Folder) (files : list string)
  : option File * list string :=
  match files with
  | [] => (None, [])
  | filePath :: rest =>
      if Js.endsWith filePath ".xml" then
        match findFileByPath tempFolder filePath with
        | Some f => (Some f, ["Found quiz file: " +:+ filePath])
        | None => scanDeclaredFiles tempFolder rest
        end
      else scanDeclaredFiles tempFolder rest
  end.

(** The test applied to the text of an [.xml] file in the fallback. *)
Definition looksLikeQuiz (identifier content : string) : bool :=
  Js.includes content "questestinterop"
  || Js.includes content "assessment"
  || Js.includes content "qti"
  || Js.includes content identifier.

(** The loop over all extracted files, left at the first hit. *)
Fixpoint scanAllFiles (identifier : string) (allFiles : list File)
  : option File * list string :=
  match allFiles with
  | [] => (None, [])
  | file :: rest =>
      if Js.endsWith (f_name file) ".xml" && looksLikeQuiz identifier (f_data file)
      then (Some file, ["Found potential quiz file: " +:+ f_name file])
      else scanAllFiles identifier rest
  end.

(** The first part of [findAndParseQuizContent]: the value of [quizFile]
    when the three blocks have run, and the console lines they wrote. *)
Definition findQuizFile (quiz : Resource) (tempFolder : Folder)
  : option File * list string :=
  let quizFile1 :=
    if Js.truthy (r_href quiz) then findFileByPath tempFolder (r_href quiz) else None in
  let '(quizFile2, log2) :=
    if bool_decide (quizFile1 = None) && bool_decide (0 < length (r_files quiz))
    then scanDeclaredFiles tempFolder (r_files quiz)
    else (quizFile1, []) in
  match quizFile2 with
  | None =>
      let '(quizFile3, log3) :=
        scanAllFiles (r_identifier quiz) (getAllFilesInFolder tempFolder) in
      (quizFile3, log2 ++ fallbackNotice :: log3)
  | Some _ => (quizFile2, log2)
  end.

Section Documents.

(** [XmlService.parse(text)] yields the root element of the document,
    or throws with a message. *)
Variable xmlParse : string → Completion Element.
Variable getUuid : nat → option string.

Definition findAndParseManifest (tempFolder : Folder) : Completion Element :=
  match Drive.getFilesByName "imsmanifest.xml" tempFolder with
  | [] => Throw manifestNotFound
  | manifestFile :: _ =>
      match xmlParse (f_data manifestFile) with
      | Normal document => Normal document
      | Throw m => Throw ("Failed to parse manifest XML: " +:+ m)
      end
  end.

Definition findAndParseQuizContent (quiz : Resource) (tempFolder : Folder) (n : nat)
  : QuizContent * nat :=
  match (findQuizFile quiz tempFolder).1 with
  | None => (placeholder quiz, n)
  | Some quizFile =>
      match xmlParse (f_data quizFile) with
      | Normal document => parseQuizXml getUuid document quiz n
      | Throw _ => (placeholder quiz, n)
      end
  end.

End Documents.

(** ** Form creation *)

Record FormChoice : Type := mkFormChoice { fc_value : string; fc_correct : bool }.

Inductive ItemKind : Type :=
  | MultipleChoiceItem
  | CheckboxItem
  | ParagraphTextItem
  | TextItem.

Record FormItem : Type := mkFormItem {
  fi_kind : ItemKind;
  fi_title : string;
  fi_choices : list FormChoice;
  fi_points : option nat
}.

Record Form : Type := mkForm {
  form_title : string;
  form_description : string;
  form_items : list FormItem;
  form_isQuiz : bool
}.

Module FormApp.

(** [FormApp.create(title)]: a form without items that is not a quiz. *)
Definition create (title : string) : Form := mkForm title "" [] false.

Definition setDescription (d : string) (f : Form) : Form :=
  mkForm (form_title f) d (form_items f) (form_isQuiz f).
Definition addItem (i : FormItem) (f : Form) : Form :=
  mkForm (form_title f) (form_description f) (form_items f ++ [i]) (form_isQuiz f).
Definition setIsQuiz (b : bool) (f : Form) : Form :=
  mkForm (form_title f) (form_description f) (form_items f) b.

Definition defaultChoices : list FormChoice :=
  [mkFormChoice "Option 1" false; mkFormChoice "Option 2" false].

End FormApp.

(** [choice.id === question.correctAnswer]. *)
Definition isAnswer (id : string) (a : Answer) : bool :=
  match a with
  | AString s => bool_decide (id = s)
  | _ => false
  end.

(** [Array.isArray(question.correctAnswer) &&
     question.correctAnswer.includes(choice.id)]. *)
Definition inAnswers (id : string) (a : Answer) : bool :=
  match a with
  | AArray l => bool_decide (id ∈ l)
  | _ => false
  end.

(** The widget chosen by the [switch] on [question.type]. *)
Definition formItemFor (question : Question) : ItemKind * list FormChoice :=
  let ty := q_type question in
  if bool_decide (ty = "multiple_choice_question") then
    (MultipleChoiceItem,
     match q_choices question with
     | [] => FormApp.defaultChoices
     | cs => (λ c, mkFormChoice (c_text c) (isAnswer (c_id c) (q_correctAnswer question))) <$> cs
     end)
  else if bool_decide (ty = "multiple_answers_question") then
    (CheckboxItem,
     match q_choices question with
     | [] => FormApp.defaultChoices
     | cs => (λ c, mkFormChoice (c_text c) (inAnswers (c_id c) (q_correctAnswer question))) <$> cs
     end)
  else if bool_decide (ty = "essay_question") then (ParagraphTextItem, [])
  else if bool_decide (ty = "short_answer_question") then (TextItem, [])
  else if bool_decide (ty = "true_false_question") then
    (MultipleChoiceItem,
     [mkFormChoice "True" (isAnswer "true" (q_correctAnswer question));
      mkFormChoice "False" (isAnswer "false" (q_correctAnswer question))])
  else (ParagraphTextItem, []).

(** [addQuestionToForm]: the form with the new item, and the question
    object, whose [text] the function may overwrite. *)
Definition addQuestionToForm (form : Form) (question : Question) : Form * Question :=
  let question :=
    if negb (Js.truthy (q_text question)) || Js.isBlank (q_text question) then
      set_text (if Js.truthy (q_title question) then q_title question
                else "Question " +:+ q_id question) question
    else question in
  let '(kind, choices) := formItemFor question in
  let points :=
    if form_isQuiz form && bool_decide (0 < q_points question)
    then Some (q_points question) else None in
  (FormApp.addItem (mkFormItem kind (q_text question) choices points) form, question).

(** A quiz of the list handed to [createGoogleForms]. *)
Record Quiz : Type := mkQuiz {
  quiz_info : Resource;
  quiz_content : option QuizContent
}.

(** [qn.correctAnswer !== null && qn.correctAnswer !== undefined]. *)
Definition hasAnswer (qn : Question) : bool :=
  bool_decide (q_correctAnswer qn ≠ ANull) && bool_decide (q_correctAnswer qn ≠ AUndefined).

(** The loop that adds the questions: the form and the question objects
    as the calls leave them. *)
Definition addQuestions (form : Form) (questions : list Question)
  : Form * list Question :=
  foldl (λ st question,
           let '(form', question') := addQuestionToForm st.1 question in
           (form', st.2 ++ [question']))
        (form, []) questions.

(** The form made for one quiz that has content. *)
Definition createForm (identifier : string) (content : QuizContent) : Form :=
  let form :=
    FormApp.create (if Js.truthy (qc_title content) then qc_title content
                    else "Quiz " +:+ identifier) in
  let form :=
    if Js.truthy (qc_description content)
    then FormApp.setDescription (qc_description content) form else form in
  let '(form, questions) := addQuestions form (qc_questions content) in
  let hasCorrectAnswers := existsb hasAnswer questions in
  if hasCorrectAnswers then FormApp.setIsQuiz true form else form.

(** [createGoogleForms]: the forms created, in order, each with the
    question count reported for it; a quiz without content is skipped. *)
Definition createGoogleForms (quizzes : list Quiz) : list (Form * nat) :=
  foldl (λ results quiz,
           match quiz_content quiz with
           | None => results
           | Some content =>
               results ++ [(createForm (r_identifier (quiz_info quiz)) content,
                            length (qc_questions content))]
           end)
        [] quizzes.

(** ** What the documents say, independently of the parsers *)

(** The value a [respcondition] contributes: the text of the first
    [varequal] of its first [conditionvar], when it has one. *)
Definition v1VarequalOf (respcondition : Element) : option string :=
  conditionvar ← Xml.getChild "conditionvar" respcondition;
  varequal ← Xml.getChild "varequal" conditionvar;
  Some (Xml.getText varequal).

(** The [varequal] values of an item, in document order of its
    [respcondition] elements. *)
Definition v1VarequalValues (item : Element) : list string :=
  match Xml.getChild "resprocessing" item with
  | Some resprocessing =>
      omap v1VarequalOf (Xml.getChildren "respcondition" resprocessing)
  | None => []
  end.

(** The entry of a metadata field labelled [label], when not empty. *)
Definition fieldEntry (label : string) (field : Element) : option string :=
  match Xml.getChildText "fieldlabel" field, Xml.getChildText "fieldentry" field with
  | Some l, Some entry =>
      if bool_decide (l = label) && Js.truthy entry then Some entry else None
  | _, _ => None
  end.

(** The metadata type of a legacy item. *)
Definition v1MetadataType (item : Element) : string :=
  match Xml.getChild "itemmetadata" item with
  | Some itemmetadata =>
      match Xml.getChild "qtimetadata" itemmetadata with
      | Some qtimetadata =>
          default "" (last (omap (fieldEntry "question_type")
                                 (Xml.getChildren "qtimetadatafield" qtimetadata)))
      | None => ""
      end
  | None => ""
  end.

(** The answer the loop over the response conditions leaves, from the
    type of the question and the values read. *)
Definition v1Answer (ty : string) (values : list string) : Answer :=
  if bool_decide (ty = "multiple_choice_question") then
    from_option AString ANull (last values)
  else if bool_decide (ty = "multiple_answers_question") then
    match values with [] => ANull | _ => AArray values end
  else ANull.

(** A [correctAnswer] read as the set of choice identifiers it names. *)
Definition answerSet (a : Answer) : gset string :=
  match a with
  | AUndefined | ANull => ∅
  | AString s => {[ s ]}
  | AArray l => list_to_set l
  end.

(** The metadata fields of the assessment element. *)
Definition descriptionFields (assessment : Element) : list Element :=
  match Xml.getChild "qtimetadata" assessment with
  | Some metadata => Xml.getChildren "qtimetadatafield" metadata
  | None => []
  end.

(** The description as the specification words it: the entry of the
    first field whose label is [qmd_description]. *)
Definition firstDescription (assessment : Element) : option string :=
  head (filter (λ field, Xml.getChildText "fieldlabel" field = Some "qmd_description")
               (descriptionFields assessment))
  ≫= Xml.getChildText "fieldentry".

(** The non-empty entry of the last field labelled [qmd_description]
    that has one; the empty string when there is none. *)
Definition lastDescription (assessment : Element) : string :=
  default "" (last (omap (fieldEntry "qmd_description") (descriptionFields assessment))).

(** The items of a legacy assessment in the order they are visited:
    its own, then those of each of its sections. *)
Definition legacyItems (assessment : Element) : list Element :=
  Xml.getChildren "item" assessment
  ++ flat_map (Xml.getChildren "item") (Xml.getChildren "section" assessment).

(** The questions a run of items yields when each is normalised in
    turn, an item that fails contributing nothing. *)
Fixpoint collectV1 (getUuid : nat → option string) (items : list Element) (n : nat)
  : list Question * nat :=
  match items with
  | [] => ([], n)
  | item :: rest =>
      let r := parseQtiv1Item getUuid item n in
      let rs := collectV1 getUuid rest r.2 in
      (match r.1 with Some q => q :: rs.1 | None => rs.1 end, rs.2)
  end.

(** The type the interaction element of a modern item stands for. *)
Definition v2InferredType (item : Element) : string :=
  match Xml.getChild "itemBody" item with
  | Some itemBody =>
      match Xml.getChild "choiceInteraction" itemBody,
            Xml.getChild "extendedTextInteraction" itemBody,
            Xml.getChild "textEntryInteraction" itemBody with
      | Some _, _, _ => "multiple_choice_question"
      | None, Some _, _ => "essay_question"
      | None, None, Some _ => "short_answer_question"
      | None, None, None => ""
      end
  | None => ""
  end.

(** The [value] children of the correct response of a modern item. *)
Definition v2CorrectValues (item : Element) : option (list Element) :=
  responseDeclaration ← Xml.getChild "responseDeclaration" item;
  correctResponse ← Xml.getChild "correctResponse" responseDeclaration;
  Some (Xml.getChildren "value" correctResponse).

(** The body of a modern item holds none of the three interactions the
    program knows (or the item has no body). *)
Definition noKnownInteraction (item : Element) : bool :=
  match Xml.getChild "itemBody" item with
  | Some itemBody =>
      match Xml.getChild "choiceInteraction" itemBody,
            Xml.getChild "extendedTextInteraction" itemBody,
            Xml.getChild "textEntryInteraction" itemBody with
      | None, None, None => true
      | _, _, _ => false
      end
  | None => true
  end.

(** The row [createGoogleForms] adds for one quiz, when it adds one. *)
Definition formResult (quiz : Quiz) : option (Form * nat) :=
  content ← quiz_content quiz;
  Some (createForm (r_identifier (quiz_info quiz)) content,
        length (qc_questions content)).

(** Some question carries a correct answer that is neither null nor
    undefined. *)
Definition someAnswered (questions : list Question) : Prop :=
  ∃ qn, qn ∈ questions
        ∧ q_correctAnswer qn ≠ ANull ∧ q_correctAnswer qn ≠ AUndefined.

(** *** The three strategies, as the specification lists them *)

(** 1. The [href] of the resource, resolved as a path in the tree. *)
Definition byHref (quiz : Resource) (tempFolder : Folder) : option File :=
  findFileByPath tempFolder (r_href quiz).

(** 2. The first declared file, in order, that ends in [.xml] and
    resolves to a path of the tree. *)
Definition byDeclaredFiles (quiz : Resource) (tempFolder : Folder) : option File :=
  head (omap (findFileByPath tempFolder)
             (filter (λ p, Js.endsWith p ".xml" = true) (r_files quiz))).

(** 3. The first [.xml] file of the whole tree whose text looks like a
    quiz. *)
Definition byContent (quiz : Resource) (tempFolder : Folder) : option File :=
  head (filter (λ f, Js.endsWith (f_name f) ".xml" = true
                     ∧ looksLikeQuiz (r_identifier quiz) (f_data f) = true)
               (getAllFilesInFolder tempFolder)).

(** The first strategy that succeeds, in that order. *)
Definition resolveContent (quiz : Resource) (tempFolder : Folder) : option File :=
  match byHref quiz tempFolder with
  | Some f => Some f
  | None =>
      match byDeclaredFiles quiz tempFolder with
      | Some f => Some f
      | None => byContent quiz tempFolder
      end
  end.

(** *** The extracted tree *)

(** An entry that becomes a file: its path does not end in the
    separator and its last segment is not empty. *)
Definition isFileEntry (b : Blob) : bool :=
  negb (Js.endsWith (b_name b) "/")
  && match last (Js.split "/" (b_name b)) with
     | Some segment => Js.truthy segment
     | None => false
     end.

(** The folder segments of an entry path. *)
Definition entryFolder (b : Blob) : list string :=
  leadingParts (Js.split "/" (b_name b)).

(** The files of the folder a path of segments leads to. *)
Definition filesAt (dirs : list string) (tree : Folder) : list File :=
  match walkFolders dirs tree with
  | Some d => Drive.getFiles d
  | None => []
  end.

(** No folder of the tree has two child folders of one name. *)
Inductive UniqueNames : Folder → Prop :=
  | UniqueNames_folder name files folders :
      NoDup (d_name <$> folders) →
      Forall UniqueNames folders →
      UniqueNames (mkFolder name files folders).

(** The common shape of [ensureFolders] and of [createFileIn] after it:
    go down the segments, entering or creating a folder for each, and
    apply [g] to the folder reached. *)
Fixpoint atPath (g : Folder → Folder) (dirs : list string) (d : Folder) : Folder :=
  match dirs with
  | [] => g d
  | folderName :: rest =>
      if negb (Js.truthy folderName) then atPath g rest d
      else
        match Drive.getFoldersByName folderName d with
        | _ :: _ =>
            Drive.withFolders
              (Drive.updateFirst folderName (atPath g rest) (Drive.getFolders d)) d
        | [] =>
            Drive.withFolders
              (Drive.getFolders d ++ [atPath g rest (Drive.emptyFolder folderName)]) d
        end
  end.

(** The files one entry of the archive adds. *)
Definition entryFiles (b : Blob) : list File :=
  if isFileEntry b then [Drive.fileOfBlob b] else [].

(** The files an archive adds, in the order of its entries. *)
Definition archiveFiles (extracted : list Blob) : list File :=
  Drive.fileOfBlob <$> filter (λ b, isFileEntry b = true) extracted.

(** *** Files of a tree, and quiz-like text *)

(** [f] is a file of the folder or of a folder below it, at any depth. *)
Inductive FileIn (f : File) : Folder → Prop :=
  | FileIn_here name files folders :
      f ∈ files → FileIn f (mkFolder name files folders)
  | FileIn_below name files folders sub :
      sub ∈ folders → FileIn f sub → FileIn f (mkFolder name files folders).

(** The text holds the literal [questestinterop], [assessment] or
    [qti], or the identifier of the resource. *)
Definition quizLike (identifier content : string) : Prop :=
  ∃ word, word ∈ ["questestinterop"; "assessment"; "qti"; identifier]
          ∧ Js.includes content word = true.

(** ** Sample documents *)

Module Sample.

(** An identifier service that is out of service, and one whose first
    call fails while the later ones succeed. *)
Definition noUuid : nat → option string := λ _, None.
Definition uuidAfterFirst : nat → option string :=
  λ n, match n with 0 => None | S _ => Some "generated-id" end.

Definition metadataField (label entry : string) : Element :=
  Xml.el "qtimetadatafield" []
    [Xml.leaf "fieldlabel" label; Xml.leaf "fieldentry" entry].

Definition respcondition (value : string) : Element :=
  Xml.el "respcondition" []
    [Xml.el "conditionvar" [] [Xml.leaf "varequal" value]].

Definition responseLabel (ident text : string) : Element :=
  Xml.el "response_label" [("ident", ident)]
    [Xml.el "material" [] [Xml.leaf "mattext" text]].

(** A legacy item of the given type whose response conditions carry
    the given values. *)
Definition legacyItem (attrs : list (string * string)) (ty : string)
           (values : list string) : Element :=
  Xml.el "item" attrs
    [Xml.el "itemmetadata" []
       [Xml.el "qtimetadata" [] [metadataField "question_type" ty]];
     Xml.el "presentation" []
       [Xml.el "material" [] [Xml.leaf "mattext" "Pick"];
        Xml.el "render_choice" []
          [responseLabel "A" "first"; responseLabel "B" "second";
           responseLabel "C" "third"]];
     Xml.el "resprocessing" [] (respcondition <$> values)].

Definition choiceItem : Element :=
  legacyItem [("ident", "q1")] "multiple_choice_question" ["A"; "B"].

Definition answersItem : Element :=
  legacyItem [("ident", "q2")] "multiple_answers_question" ["A"; "C"].

Definition legacyChoices : list Choice :=
  [mkChoice "A" "first"; mkChoice "B" "second"; mkChoice "C" "third"].

Definition choiceQuestion : Question :=
  mkQuestion "q1" "" "multiple_choice_question" "Pick" legacyChoices (AString "B") 1.

Definition answersQuestion : Question :=
  mkQuestion "q2" "" "multiple_answers_question" "Pick" legacyChoices
             (AArray ["A"; "C"]) 1.

Definition resource : Resource :=
  mkResource "res1" "quiz/quiz1.xml" ["quiz/quiz1.xml"] "Quiz one".

(** A legacy assessment with two description fields. *)
Definition describedAssessment : Element :=
  Xml.el "assessment" [("title", "Described")]
    [Xml.el "qtimetadata" []
       [metadataField "qmd_description" "first";
        metadataField "qmd_description" "second"]].

Definition describedRoot : Element :=
  Xml.el "questestinterop" [] [describedAssessment].

(** A legacy assessment whose second item has no [ident]. *)
Definition anonymousItem : Element :=
  legacyItem [] "essay_question" [].

Definition mixedAssessment : Element :=
  Xml.el "assessment" []
    [choiceItem; anonymousItem; Xml.el "section" [] [answersItem]].

Definition mixedRoot : Element := Xml.el "questestinterop" [] [mixedAssessment].

(** Modern items. *)
Definition simpleChoice (identifier text : string) : Element :=
  mkElement "" "simpleChoice" [("identifier", identifier)] [inl text].

Definition correctResponse (values : list string) : Element :=
  Xml.el "responseDeclaration" []
    [Xml.el "correctResponse" [] (Xml.leaf "value" <$> values)].

Definition modernItem (values : list string) : Element :=
  Xml.el "item" [("identifier", "m1")]
    [correctResponse values;
     Xml.el "itemBody" []
       [Xml.leaf "prompt" "Pick";
        Xml.el "choiceInteraction" []
          [simpleChoice "A" "first"; simpleChoice "B" "second"]]].

Definition modernChoices : list Choice :=
  [mkChoice "A" "first"; mkChoice "B" "second"].

Definition modernQuestion (answer : Answer) : Question :=
  mkQuestion "m1" "" "multiple_choice_question" "Pick" modernChoices answer 1.

(** A modern item whose body holds an interaction the program does not
    know. *)
Definition orderItem : Element :=
  Xml.el "item" [("identifier", "m2")]
    [Xml.el "itemBody" []
       [Xml.leaf "prompt" "Sort"; Xml.el "orderInteraction" [] []]].

Definition orderQuestion : Question :=
  mkQuestion "m2" "" "" "Sort" [] ANull 1.

(** Folder trees. *)
Definition parseManifest : string → Completion Element :=
  λ _, Normal (Xml.el "manifest" [] []).

Definition tempFolder : Folder := Drive.emptyFolder "IMSCC_Temp".

(** An archive whose manifest lies in a subfolder, and the tree its
    extraction gives. *)
Definition courseBlobs : list Blob :=
  [mkBlob "course/" ""; mkBlob "course/imsmanifest.xml" "<manifest/>"].

Definition extractedCourse : Folder :=
  mkFolder "IMSCC_Temp" []
    [mkFolder "course" [mkFile "course/imsmanifest.xml" "<manifest/>"] []].

(** A tree with a file named [imsmanifest.xml] in a subfolder. *)
Definition courseTree : Folder :=
  mkFolder "IMSCC_Temp" []
    [mkFolder "course" [mkFile "imsmanifest.xml" "<manifest/>"] []].

(** A tree with the manifest and a quiz body at the root, and a
    resource whose [href] leads nowhere. *)
Definition manifestFile : File :=
  mkFile "imsmanifest.xml" "<manifest><resource type='assessment'/></manifest>".
Definition quiz1File : File := mkFile "quiz1.xml" "<questestinterop/>".

Definition quizTree : Folder :=
  mkFolder "IMSCC_Temp" [manifestFile; quiz1File] [].

Definition quizResource : Resource :=
  mkResource "res1" "missing/quiz.xml" ["style.css"; "quiz1.xml"] "Quiz one".

(** An archive of directory markers and one file. *)
Definition nestedBlobs : list Blob :=
  [mkBlob "a/" ""; mkBlob "a/b/" ""; mkBlob "a/b/c.xml" "<quiz/>"].

Definition nestedFile : File := mkFile "a/b/c.xml" "<quiz/>".

Definition nestedTree : Folder :=
  mkFolder "IMSCC_Temp" []
    [mkFolder "a" [] [mkFolder "b" [nestedFile] []]].

End Sample.

(** * The remaining functions *)

(** ** Listing the archives of the user *)

(** A file of the Drive as the sidebar shows it. *)
Record DriveFile : Type := mkDriveFile { df_id : string; df_name : string }.

(** The [while] loop of [findIMSCCFiles]: [iterator] holds the files the
    search has not handed out yet. *)
Fixpoint findIMSCCLoop (iterator : list DriveFile) (count : nat)
         (files : list DriveFile) : list DriveFile :=
  match iterator with
  | [] => files
  | file :: rest =>
      if bool_decide (count < 50)
      then findIMSCCLoop rest (S count) (files ++ [file])
      else files
  end.

(** [findIMSCCFiles]; [search] is what [DriveApp.searchFiles] yields,
    or the error it throws. *)
Definition findIMSCCFiles (search : Completion (list DriveFile)) : list DriveFile :=
  match search with
  | Normal iterator => findIMSCCLoop iterator 0 []
  | Throw _ => []
  end.

(** ** Quiz resources of the manifest *)

Module XmlNs.

(** [e.getChildren(name, ns)]: the child elements with that local name
    in the namespace [uri], in document order. *)
Definition getChildren (name uri : string) (e : Element) : list Element :=
  filter (λ c, ename c = name ∧ ens c = uri) (Xml.childElements e).

(** [e.getChild(name, ns)]: the first such child, or null. *)
Definition getChild (name uri : string) (e : Element) : option Element :=
  head (getChildren name uri e).

End XmlNs.

Definition imsNS : string := "http://www.imsglobal.org/xsd/imscp_v1p1".

(** The test on the [type] attribute of a resource. *)
Definition isQuizType (type : string) : bool :=
  bool_decide (type = "imsqti_xmlv1p2")
  || bool_decide (type = "imsqti_xmlv2p1")
  || Js.includes type "assessment"
  || Js.includes type "qti"
  || Js.includes type "quiz".

(** Body of the loop over the [resource] elements: the quiz object that
    is pushed, if any. *)
Definition resourceQuiz (resourceElement : Element) : option Resource :=
  match Xml.getAttribute "type" resourceElement with
  | None => None
  | Some type =>
      if isQuizType type then
        match Xml.getAttribute "identifier" resourceElement with
        | None => None
        | Some identifier =>
            Some (mkResource
                    identifier
                    (default "" (Xml.getAttribute "href" resourceElement))
                    (omap (Xml.getAttribute "href")
                          (XmlNs.getChildren "file" imsNS resourceElement))
                    (match XmlNs.getChild "title" imsNS resourceElement with
                     | Some titleElement => Xml.getText titleElement
                     | None => identifier
                     end))
        end
      else None
  end.

(** The first loop of [findQuizzesInManifest]. *)
Definition quizResources (root : Element) : list Resource :=
  match XmlNs.getChild "resources" imsNS root with
  | None => []
  | Some resources =>
      foldl (λ quizzes resourceElement,
               match resourceQuiz resourceElement with
               | Some quiz => quizzes ++ [quiz]
               | None => quizzes
               end)
            [] (XmlNs.getChildren "resource" imsNS resources)
  end.

Section Manifest.

Variable xmlParse : string → Completion Element.
Variable getUuid : nat → option string.

(** The second loop: [quizzes[i].content = findAndParseQuizContent(...)]. *)
Definition attachContent (tempFolder : Folder) (st : list Quiz * nat) (quiz : Resource)
  : list Quiz * nat :=
  let r := findAndParseQuizContent xmlParse getUuid quiz tempFolder st.2 in
  (st.1 ++ [mkQuiz quiz (Some r.1)], r.2).

(** [findQuizzesInManifest]: no call of its body throws, so the [catch]
    is not reached. *)
Definition findQuizzesInManifest (root : Element) (tempFolder : Folder) (n : nat)
  : list Quiz * nat :=
  foldl (attachContent tempFolder) ([], n) (quizResources root).

End Manifest.

(** ** The alternative extraction *)

(** One round of the loop of [alternativeExtractIMSCC]: every blob that
    is not a directory marker becomes a file of the temporary folder
    itself. *)
Definition altExtractBlob (st : Folder * list File) (extractedBlob : Blob)
  : Folder * list File :=
  if Js.endsWith (b_name extractedBlob) "/" then st
  else (Drive.createFile extractedBlob st.1,
        st.2 ++ [Drive.fileOfBlob extractedBlob]).

(** [alternativeExtractIMSCC], from the unzipped array onwards. *)
Definition alternativeExtractIMSCC (extracted : list Blob) (tempFolder : Folder)
  : Folder * list File :=
  foldl altExtractBlob (tempFolder, []) extracted.

(** ** The spreadsheet *)

Inductive Cell : Type :=
  | CText (s : string)
  | CNumber (n : nat)
  | CFormula (f : string).

(** The active sheet: its rows up to the last one with content, the
    rows set in bold and the number of frozen rows. *)
Record Sheet : Type := mkSheet {
  sh_rows : list (list Cell);
  sh_bold : list nat;
  sh_frozen : nat
}.

(** An entry of the array [createGoogleForms] returns. *)
Record FormInfo : Type := mkFormInfo {
  info_url : string;
  info_editUrl : string;
  info_title : string;
  info_numQuestions : nat;
  info_creationDate : string
}.

Definition SPREADSHEET_HEADERS : list string :=
  ["Form Title"; "Form URL"; "Edit URL"; "Number of Questions"; "Creation Date"].

Definition quote : string := String "034"%char EmptyString.

(** [=HYPERLINK("url","label")]. *)
Definition hyperlink (url label : string) : string :=
  "=HYPERLINK(" +:+ quote +:+ url +:+ quote +:+ "," +:+ quote +:+ label
  +:+ quote +:+ ")".

Module SheetApp.

Definition getLastRow (sheet : Sheet) : nat := length (sh_rows sheet).

Definition appendRow (row : list Cell) (sheet : Sheet) : Sheet :=
  mkSheet (sh_rows sheet ++ [row]) (sh_bold sheet) (sh_frozen sheet).

(** [sheet.getRange(row, column).setFormula(f)], rows and columns
    counted from 1; a cell outside the rows held is left alone. *)
Definition setFormula (row column : nat) (f : string) (sheet : Sheet) : Sheet :=
  mkSheet
    (alter (λ cells, <[pred column := CFormula f]> cells) (pred row) (sh_rows sheet))
    (sh_bold sheet) (sh_frozen sheet).

Definition setBold (row : nat) (sheet : Sheet) : Sheet :=
  mkSheet (sh_rows sheet) (sh_bold sheet ++ [row]) (sh_frozen sheet).

Definition setFrozenRows (n : nat) (sheet : Sheet) : Sheet :=
  mkSheet (sh_rows sheet) (sh_bold sheet) n.

End SheetApp.

Section Spreadsheet.

(** [new Date(text).toLocaleString()], which depends on the locale of
    the host. *)
Variable toLocaleString : string → string.

(** The header block of [updateSpreadsheetWithFormInfo]. *)
Definition writeHeader (sheet : Sheet) : Sheet :=
  if bool_decide (SheetApp.getLastRow sheet = 0) then
    SheetApp.setFrozenRows 1
      (SheetApp.setBold 1 (SheetApp.appendRow (CText <$> SPREADSHEET_HEADERS) sheet))
  else sheet.

(** Body of the loop over the forms. *)
Definition writeForm (sheet : Sheet) (form : FormInfo) : Sheet :=
  let rowData :=
    [CText (info_title form); CText (info_url form); CText (info_editUrl form);
     CNumber (info_numQuestions form); CText (toLocaleString (info_creationDate form))] in
  let sheet := SheetApp.appendRow rowData sheet in
  let lastRow := SheetApp.getLastRow sheet in
  SheetApp.setFormula lastRow 3 (hyperlink (info_editUrl form) "Edit Form")
    (SheetApp.setFormula lastRow 2 (hyperlink (info_url form) "View Form") sheet).

Definition updateSpreadsheetWithFormInfo (formData : list FormInfo) (sheet : Sheet)
  : Sheet :=
  foldl writeForm (writeHeader sheet) formData.

End Spreadsheet.

(** ** Notions used to describe the remaining functions *)

(** The last character of a string. *)
Fixpoint lastChar (s : string) : option ascii :=
  match s with
  | EmptyString => None
  | String c s' => match lastChar s' with Some x => Some x | None => Some c end
  end.

(** The folder names an entry path goes through: its leading segments
    that are not empty. *)
Definition folderSegments (dirs : list string) : list string :=
  filter (λ s, Js.truthy s = true) dirs.

(** Every file of the tree lies in the folder its own name, read as an
    entry path, leads to; [path] is the place of the folder. *)
Inductive WellPlaced : list string → Folder → Prop :=
  | WellPlaced_folder path name files folders :
      (∀ f, f ∈ files →
            folderSegments (leadingParts (Js.split "/" (f_name f))) = path) →
      Forall (λ s, WellPlaced (path ++ [d_name s]) s) folders →
      WellPlaced path (mkFolder name files folders).

(** The widget made for a question, as [addQuestionToForm] adds it to a
    form that is not a quiz yet. *)
Definition itemOf (question : Question) : FormItem :=
  let text :=
    if negb (Js.truthy (q_text question)) || Js.isBlank (q_text question) then
      if Js.truthy (q_title question) then q_title question
      else "Question " +:+ q_id question
    else q_text question in
  let shown := set_text text question in
  mkFormItem (formItemFor shown).1 text (formItemFor shown).2 None.

(** The row [updateSpreadsheetWithFormInfo] leaves for a form. *)
Definition formRow (toLocaleString : string → string) (form : FormInfo) : list Cell :=
  [CText (info_title form);
   CFormula (hyperlink (info_url form) "View Form");
   CFormula (hyperlink (info_editUrl form) "Edit Form");
   CNumber (info_numQuestions form);
   CText (toLocaleString (info_creationDate form))].

(** ** Further sample data *)

Module Fixture.

Definition uuids : nat → option string := λ _, Some "generated-id".

Definition parseNothing : string → Completion Element := λ _, Throw "not XML".

(** A resource none of whose files exists. *)
Definition lostResource : Resource :=
  mkResource "res9" "quiz/lost.xml" ["quiz/lost.xml"] "Lost quiz".

(** An archive with the manifest at its root and a quiz body in a
    subfolder, and the tree its extraction gives. *)
Definition courseBlobs : list Blob :=
  [mkBlob "imsmanifest.xml" "<manifest/>";
   mkBlob "quiz/" "";
   mkBlob "quiz/quiz1.xml" "<questestinterop/>"].

Definition manifestFile : File := mkFile "imsmanifest.xml" "<manifest/>".
Definition quizFile : File := mkFile "quiz/quiz1.xml" "<questestinterop/>".

Definition courseTree : Folder :=
  mkFolder "IMSCC_Temp" [manifestFile] [mkFolder "quiz" [quizFile] []].

Definition nestedResource : Resource :=
  mkResource "res1" "quiz/quiz1.xml" ["quiz/quiz1.xml"] "Quiz one".

Definition markers : list Blob := [mkBlob "a/" ""; mkBlob "a/b/" ""].

(** A legacy true/false item whose response condition names "true". *)
Definition trueFalseItem : Element :=
  Sample.legacyItem [("ident", "q3")] "true_false_question" ["true"].

Definition trueFalseQuestion : Question :=
  mkQuestion "q3" "" "true_false_question" "Pick" Sample.legacyChoices ANull 1.

(** A legacy body whose elements are in the QTI namespace. *)
Definition qtiNS : string := "http://www.imsglobal.org/xsd/ims_qtiasiv1p2".

Definition namespacedRoot : Element :=
  mkElement qtiNS "questestinterop" []
    [inr (mkElement qtiNS "assessment" [("title", "Namespaced")]
            [inr (mkElement qtiNS "item" [("ident", "q1")] [])])].

(** An archive of two files, the tree its extraction gives, and a
    resource that declares both files, [quiz1.xml] second, with an
    [href] that leads nowhere. *)
Definition twoBodiesBlobs : list Blob :=
  [mkBlob "other.xml" "<notes/>"; mkBlob "quiz1.xml" "<questestinterop/>"].

Definition otherFile : File := mkFile "other.xml" "<notes/>".

Definition twoBodiesTree : Folder :=
  mkFolder "IMSCC_Temp" [otherFile; Sample.quiz1File] [].

Definition twoBodiesResource : Resource :=
  mkResource "res1" "missing/quiz.xml" ["other.xml"; "quiz1.xml"] "Quiz one".

(** A manifest written without namespace. *)
Definition plainManifest : Element :=
  Xml.el "manifest" []
    [Xml.el "resources" []
       [Xml.el "resource" [("type", "imsqti_xmlv1p2"); ("identifier", "res1")] []]].

End Fixture.

(** * Properties *)

(** ** Legacy items *)

Lemma set_correctAnswer_id q : set_correctAnswer (q_correctAnswer q) q = q.
Proof. by destruct q. Qed.

(** A loop that overwrites one component whenever the element at hand
    supplies a value leaves the last supplied value there. *)
Lemma foldl_last_wins {A B S} (step : S → A → S) (get : S → B) (pick : A → option B) :
  (∀ s a, get (step s a) = default (get s) (pick a)) →
  ∀ l s, get (foldl step s l) = default (get s) (last (omap pick l)).
Proof.
  intros Hstep l. induction l as [|a l IH]; intros s; [done|].
  change (omap pick (a :: l))
    with (match pick a with Some y => y :: omap pick l | None => omap pick l end).
  simpl. rewrite IH, Hstep. destruct (pick a) as [b|]; [|done].
  simpl. destruct (omap pick l) as [|x xs]; [done|].
  rewrite (last_cons b), !(last_cons x). by destruct (last xs).
Qed.

(** A loop whose body keeps a component keeps it. *)
Lemma foldl_preserves {A B S} (step : S → A → S) (get : S → B) :
  (∀ s a, get (step s a) = get s) →
  ∀ l s, get (foldl step s l) = get s.
Proof.
  intros Hstep l. induction l as [|a l IH]; intros s; [done|].
  simpl. by rewrite IH.
Qed.

Lemma v1TypeField_type q field :
  q_type (v1TypeField q field)
  = default (q_type q) (fieldEntry "question_type" field).
Proof.
  unfold v1TypeField, fieldEntry.
  destruct (Xml.getChildText "fieldlabel" field), (Xml.getChildText "fieldentry" field);
    try done.
  by destruct (_ && _).
Qed.

Lemma v1Type_type item q :
  q_type q = "" → q_type (v1Type item q) = v1MetadataType item.
Proof.
  intros Hq. unfold v1Type, v1MetadataType.
  destruct (Xml.getChild "itemmetadata" item) as [im|]; [|done].
  destruct (Xml.getChild "qtimetadata" im) as [md|]; [|done].
  rewrite (foldl_last_wins v1TypeField q_type (fieldEntry "question_type"))
    by apply v1TypeField_type.
  by rewrite Hq.
Qed.

Lemma v1Type_answer item q : q_correctAnswer (v1Type item q) = q_correctAnswer q.
Proof.
  unfold v1Type.
  destruct (Xml.getChild "itemmetadata" item) as [im|]; [|done].
  destruct (Xml.getChild "qtimetadata" im) as [md|]; [|done].
  apply (foldl_preserves v1TypeField q_correctAnswer).
  intros s a. unfold v1TypeField.
  destruct (Xml.getChildText "fieldlabel" a), (Xml.getChildText "fieldentry" a); try done.
  by destruct (_ && _).
Qed.

Lemma v1Text_fields item q :
  q_type (v1Text item q) = q_type q
  ∧ q_correctAnswer (v1Text item q) = q_correctAnswer q.
Proof.
  unfold v1Text.
  destruct (Xml.getChild "presentation" item) as [p|]; [|done].
  destruct (Xml.getChild "material" p) as [m|]; [|done].
  by destruct (Xml.getChild "mattext" m).
Qed.

Lemma v1ChoiceLabel_fields q l :
  q_type (v1ChoiceLabel q l) = q_type q
  ∧ q_correctAnswer (v1ChoiceLabel q l) = q_correctAnswer q.
Proof.
  unfold v1ChoiceLabel.
  destruct (Xml.getAttribute "ident" l); [|done].
  destruct (Xml.getChild "material" l) as [m|]; [|done].
  by destruct (Xml.getChild "mattext" m).
Qed.

Lemma v1Choices_fields item q :
  q_type (v1Choices item q) = q_type q
  ∧ q_correctAnswer (v1Choices item q) = q_correctAnswer q.
Proof.
  unfold v1Choices.
  destruct (Xml.getChild "presentation" item) as [p|]; [|done].
  destruct (Xml.getChild "render_choice" p) as [r|]; [|done].
  split.
  - apply (foldl_preserves v1ChoiceLabel q_type), v1ChoiceLabel_fields.
  - apply (foldl_preserves v1ChoiceLabel q_correctAnswer), v1ChoiceLabel_fields.
Qed.

Lemma set_correctAnswer_twice a b q :
  set_correctAnswer a (set_correctAnswer b q) = set_correctAnswer a q.
Proof. done. Qed.

Lemma v1Answer_snoc_choice seen v :
  v1Answer "multiple_choice_question" (seen ++ [v]) = AString v.
Proof. unfold v1Answer. simpl. by rewrite last_snoc. Qed.

Lemma v1Answer_snoc_answers seen v :
  v1Answer "multiple_answers_question" (seen ++ [v]) = AArray (seen ++ [v]).
Proof. unfold v1Answer. simpl. by destruct seen. Qed.

(** The loop over the response conditions never throws, and leaves the
    answer determined by the type and by all values read so far. *)
Lemma forOf_v1Respcondition l : ∀ q seen,
  q_correctAnswer q = v1Answer (q_type q) seen →
  forOf v1Respcondition l q
  = Normal (set_correctAnswer (v1Answer (q_type q) (seen ++ omap v1VarequalOf l)) q).
Proof.
  induction l as [|rc l IH]; intros q seen Hq.
  { simpl. change (omap v1VarequalOf []) with (@nil string).
    by rewrite app_nil_r, <- Hq, set_correctAnswer_id. }
  change (omap v1VarequalOf (rc :: l))
    with (match v1VarequalOf rc with
          | Some y => y :: omap v1VarequalOf l
          | None => omap v1VarequalOf l
          end).
  cbn [forOf]. unfold v1Respcondition at 1. unfold v1VarequalOf at 1.
  destruct (Xml.getChild "conditionvar" rc) as [cv|]; simpl; [|by apply IH].
  destruct (Xml.getChild "varequal" cv) as [ve|]; simpl; [|by apply IH].
  set (v := Xml.getText ve).
  replace (seen ++ v :: omap v1VarequalOf l) with ((seen ++ [v]) ++ omap v1VarequalOf l)
    by (by rewrite <- app_assoc).
  case_bool_decide as Hmc.
  { simpl. erewrite IH; [by rewrite set_correctAnswer_twice|].
    simpl. by rewrite Hmc, v1Answer_snoc_choice. }
  case_bool_decide as Hma; [|by apply IH; rewrite Hq; unfold v1Answer;
                               rewrite !bool_decide_eq_false_2].
  assert (push_correctAnswer v
            (if answerTruthy (q_correctAnswer q) then q
             else set_correctAnswer (AArray []) q)
          = Normal (set_correctAnswer (AArray (seen ++ [v])) q)) as ->.
  { unfold push_correctAnswer. rewrite Hq, Hma. unfold v1Answer. simpl.
    destruct seen; simpl; [done|]. by rewrite Hq, Hma. }
  simpl. erewrite IH; [by rewrite set_correctAnswer_twice|].
  simpl. by rewrite Hma, v1Answer_snoc_answers.
Qed.

Lemma v1Answer_nil ty : v1Answer ty [] = ANull.
Proof. unfold v1Answer. by repeat case_bool_decide. Qed.

(** The body of the legacy normaliser completes normally. *)
Lemma v1Body_normal item id :
  ∃ q, v1Body item id = Normal q
       ∧ q_type q = v1MetadataType item
       ∧ q_correctAnswer q = v1Answer (v1MetadataType item) (v1VarequalValues item).
Proof.
  unfold v1Body.
  set (q0 := mkQuestion _ _ _ _ _ _ _).
  set (q3 := v1Choices item (v1Text item (v1Type item q0))).
  assert (q_type q3 = v1MetadataType item) as Hty.
  { unfold q3. rewrite (proj1 (v1Choices_fields _ _)), (proj1 (v1Text_fields _ _)).
    by apply v1Type_type. }
  assert (q_correctAnswer q3 = ANull) as Hans.
  { unfold q3. rewrite (proj2 (v1Choices_fields _ _)), (proj2 (v1Text_fields _ _)).
    by rewrite v1Type_answer. }
  unfold v1CorrectAnswer, v1VarequalValues.
  destruct (Xml.getChild "resprocessing" item) as [rp|].
  - eexists. split.
    + apply (forOf_v1Respcondition _ q3 []). by rewrite Hans, v1Answer_nil.
    + simpl. by rewrite Hty.
  - exists q3. by rewrite v1Answer_nil.
Qed.

(** The legacy normaliser returns null exactly when the item has no
    [ident] attribute and the identifier service fails. *)
Lemma parseQtiv1Item_null getUuid item n :
  (parseQtiv1Item getUuid item n).1 = None
  ↔ Xml.getAttribute "ident" item = None ∧ getUuid n = None.
Proof.
  unfold parseQtiv1Item, idOrUuid, Utilities_getUuid.
  destruct (Xml.getAttribute "ident" item) as [i|]; simpl.
  - destruct (v1Body_normal item i) as (q & -> & _). simpl.
    split; [done | by intros [? _]].
  - destruct (getUuid n) as [u|]; simpl; [|done].
    destruct (v1Body_normal item u) as (q & -> & _). simpl.
    split; [done | by intros [_ ?]].
Qed.

Lemma parseQtiv1Item_question getUuid item n q :
  (parseQtiv1Item getUuid item n).1 = Some q →
  q_type q = v1MetadataType item
  ∧ q_correctAnswer q = v1Answer (v1MetadataType item) (v1VarequalValues item).
Proof.
  unfold parseQtiv1Item, idOrUuid, Utilities_getUuid.
  destruct (Xml.getAttribute "ident" item) as [i|]; simpl.
  - destruct (v1Body_normal item i) as (q' & -> & H). simpl. by intros [= <-].
  - destruct (getUuid n) as [u|]; simpl; [|done].
    destruct (v1Body_normal item u) as (q' & -> & H). simpl. by intros [= <-].
Qed.

(** ** Correct answers of legacy items *)

Example parse_choiceItem :
  parseQtiv1Item Sample.noUuid Sample.choiceItem 0 = (Some Sample.choiceQuestion, 0).
Proof. vm_compute. reflexivity. Qed.

Example parse_answersItem :
  parseQtiv1Item Sample.noUuid Sample.answersItem 0 = (Some Sample.answersQuestion, 0).
Proof. vm_compute. reflexivity. Qed.

(** C1. For a legacy item whose metadata type is
    [multiple_choice_question], the question returned by
    [parseQtiv1Item] has as [correctAnswer] the last of the [varequal]
    values read from the response conditions in document order (null
    when there is none): a later value overwrites an earlier one, and
    the values "A" then "B" give "B". *)
Theorem legacy_choice_answer_is_last_varequal getUuid item n q :
  (parseQtiv1Item getUuid item n).1 = Some q →
  v1MetadataType item = "multiple_choice_question" →
  q_correctAnswer q = from_option AString ANull (last (v1VarequalValues item))
  ∧ (∀ earlier v, v1VarequalValues item = earlier ++ [v] →
       q_correctAnswer q = AString v)
  ∧ (v1VarequalValues item = ["A"; "B"] → q_correctAnswer q = AString "B").
Proof.
  intros Hq Hty. apply parseQtiv1Item_question in Hq as [_ Hans].
  rewrite Hty in Hans. unfold v1Answer in Hans. simpl in Hans.
  split; [done|]. split.
  - intros earlier v Hv. by rewrite Hans, Hv, last_snoc.
  - intros Hv. by rewrite Hans, Hv.
Qed.

Lemma legacy_choice_answer_witness :
  q_correctAnswer Sample.choiceQuestion = AString "B".
Proof.
  apply (legacy_choice_answer_is_last_varequal
           Sample.noUuid Sample.choiceItem 0 Sample.choiceQuestion);
    vm_compute; reflexivity.
Defined.

(** C5. For a legacy item whose metadata type is
    [multiple_answers_question], [correctAnswer] is the array of all
    [varequal] values read (null when there is none), so that as a set
    it is the set of those values; the values "A" and "C" give the set
    of "A" and "C".  For a type that is neither
    [multiple_choice_question] nor [multiple_answers_question] it stays
    null. *)
Theorem legacy_answers_collect_all_varequals getUuid item n q :
  (parseQtiv1Item getUuid item n).1 = Some q →
  (v1MetadataType item = "multiple_answers_question" →
     q_correctAnswer q
     = match v1VarequalValues item with
       | [] => ANull
       | values => AArray values
       end
     ∧ answerSet (q_correctAnswer q) = list_to_set (v1VarequalValues item)
     ∧ (v1VarequalValues item = ["A"; "C"] →
          answerSet (q_correctAnswer q) = {[ "A"; "C" ]}))
  ∧ (v1MetadataType item ≠ "multiple_choice_question" →
     v1MetadataType item ≠ "multiple_answers_question" →
     q_correctAnswer q = ANull).
Proof.
  intros Hq. apply parseQtiv1Item_question in Hq as [_ Hans].
  split.
  - intros Hty. rewrite Hty in Hans. unfold v1Answer in Hans. simpl in Hans.
    rewrite Hans. split; [by destruct (v1VarequalValues item)|]. split.
    + by destruct (v1VarequalValues item).
    + intros ->. simpl. set_solver.
  - intros H1 H2. rewrite Hans. unfold v1Answer.
    by rewrite !bool_decide_eq_false_2.
Qed.

Lemma legacy_answers_witness :
  q_correctAnswer Sample.answersQuestion = AArray ["A"; "C"]
  ∧ answerSet (q_correctAnswer Sample.answersQuestion) = {[ "A"; "C" ]}.
Proof.
  destruct (legacy_answers_collect_all_varequals
              Sample.noUuid Sample.answersItem 0 Sample.answersQuestion)
    as [H _]; [vm_compute; reflexivity|].
  destruct H as (H1 & _ & H3); [vm_compute; reflexivity|].
  split; [exact H1 | apply H3; vm_compute; reflexivity].
Defined.

(** ** Legacy quiz bodies *)

Lemma v1DescriptionField_step d field :
  v1DescriptionField d field = default d (fieldEntry "qmd_description" field).
Proof.
  unfold v1DescriptionField, fieldEntry.
  destruct (Xml.getChildText "fieldlabel" field), (Xml.getChildText "fieldentry" field);
    try done.
  by destruct (_ && _).
Qed.

Lemma v1Description_last assessment :
  v1Description assessment "" = lastDescription assessment.
Proof.
  unfold v1Description, lastDescription, descriptionFields.
  destruct (Xml.getChild "qtimetadata" assessment) as [md|]; [|done].
  apply (foldl_last_wins v1DescriptionField id (fieldEntry "qmd_description")).
  apply v1DescriptionField_step.
Qed.

(** C4, as the program behaves: the description returned by
    [parseQtiv1Quiz] is the non-empty entry of the last field labelled
    [qmd_description] that has one, and the empty string when no field
    supplies one. *)
Theorem legacy_description_is_last_entry getUuid root quiz n assessment :
  Xml.getChild "assessment" root = Some assessment →
  qc_description (parseQtiv1Quiz getUuid root quiz n).1 = lastDescription assessment.
Proof.
  intros Ha. unfold parseQtiv1Quiz. rewrite Ha. simpl.
  apply v1Description_last.
Qed.

Lemma legacy_description_witness :
  qc_description (parseQtiv1Quiz Sample.noUuid Sample.describedRoot Sample.resource 0).1
  = lastDescription Sample.describedAssessment.
Proof.
  apply (legacy_description_is_last_entry
           Sample.noUuid Sample.describedRoot Sample.resource 0
           Sample.describedAssessment).
  vm_compute. reflexivity.
Defined.

(** C4, as stated, fails: with the entries "first" and "second" under
    two fields labelled [qmd_description], the first such field holds
    "first" while the description returned is "second". *)
Lemma legacy_description_not_first :
  Xml.getChild "assessment" Sample.describedRoot = Some Sample.describedAssessment
  ∧ firstDescription Sample.describedAssessment = Some "first"
  ∧ qc_description (parseQtiv1Quiz Sample.noUuid Sample.describedRoot Sample.resource 0).1
    = "second"
  ∧ ¬ (∀ getUuid root quiz n assessment entry,
         Xml.getChild "assessment" root = Some assessment →
         firstDescription assessment = Some entry →
         qc_description (parseQtiv1Quiz getUuid root quiz n).1 = entry).
Proof.
  split; [vm_compute; reflexivity|].
  split; [vm_compute; reflexivity|].
  split; [vm_compute; reflexivity|].
  intros H.
  specialize (H Sample.noUuid Sample.describedRoot Sample.resource 0
                Sample.describedAssessment "first").
  discriminate H; vm_compute; reflexivity.
Qed.

(** *** Items that fail *)

Lemma collectV1_app getUuid l1 l2 n :
  collectV1 getUuid (l1 ++ l2) n
  = ((collectV1 getUuid l1 n).1 ++ (collectV1 getUuid l2 (collectV1 getUuid l1 n).2).1,
     (collectV1 getUuid l2 (collectV1 getUuid l1 n).2).2).
Proof.
  revert n. induction l1 as [|x l1 IH]; intros n; simpl.
  - by destruct (collectV1 getUuid l2 n).
  - rewrite IH. simpl. by destruct (parseQtiv1Item getUuid x n).1.
Qed.

Lemma foldl_v1PushItem getUuid items : ∀ st,
  foldl (v1PushItem getUuid) st items
  = (st.1 ++ (collectV1 getUuid items st.2).1, (collectV1 getUuid items st.2).2).
Proof.
  induction items as [|x items IH]; intros [qs n]; simpl.
  - by rewrite app_nil_r.
  - rewrite IH. unfold v1PushItem. simpl.
    destruct (parseQtiv1Item getUuid x n) as [[q|] n']; simpl; [|done].
    by rewrite <- app_assoc.
Qed.

Lemma foldl_v1PushSection getUuid sections : ∀ st,
  foldl (v1PushSection getUuid) st sections
  = (st.1 ++ (collectV1 getUuid (flat_map (Xml.getChildren "item") sections) st.2).1,
     (collectV1 getUuid (flat_map (Xml.getChildren "item") sections) st.2).2).
Proof.
  induction sections as [|x sections IH]; intros [qs n]; simpl.
  - by rewrite app_nil_r.
  - rewrite IH. unfold v1PushSection. rewrite foldl_v1PushItem, collectV1_app. simpl.
    by rewrite <- app_assoc.
Qed.

(** The questions of a legacy quiz are those of its items, visited in
    document order. *)
Lemma parseQtiv1Quiz_questions getUuid root quiz n assessment :
  Xml.getChild "assessment" root = Some assessment →
  qc_questions (parseQtiv1Quiz getUuid root quiz n).1
  = (collectV1 getUuid (legacyItems assessment) n).1.
Proof.
  intros Ha. unfold parseQtiv1Quiz, legacyItems. rewrite Ha. simpl.
  by rewrite foldl_v1PushSection, foldl_v1PushItem, collectV1_app.
Qed.

(** C10. When the normaliser returns null for one item of a legacy quiz,
    the quiz still holds the questions of the items before it followed
    by those of the items after it, in document order: the failing item
    adds nothing and stops nothing. *)
Theorem legacy_item_failure_is_isolated
        getUuid root quiz n assessment before bad after :
  Xml.getChild "assessment" root = Some assessment →
  legacyItems assessment = before ++ bad :: after →
  (parseQtiv1Item getUuid bad (collectV1 getUuid before n).2).1 = None →
  qc_questions (parseQtiv1Quiz getUuid root quiz n).1
  = (collectV1 getUuid before n).1
    ++ (collectV1 getUuid after
          (parseQtiv1Item getUuid bad (collectV1 getUuid before n).2).2).1.
Proof.
  intros Ha Hitems Hbad.
  rewrite (parseQtiv1Quiz_questions _ _ _ _ _ Ha), Hitems, collectV1_app.
  simpl. by rewrite Hbad.
Qed.

Lemma legacy_item_failure_witness :
  qc_questions
    (parseQtiv1Quiz Sample.uuidAfterFirst Sample.mixedRoot Sample.resource 0).1
  = [Sample.choiceQuestion; Sample.answersQuestion].
Proof.
  apply (legacy_item_failure_is_isolated
           Sample.uuidAfterFirst Sample.mixedRoot Sample.resource 0
           Sample.mixedAssessment [Sample.choiceItem] Sample.anonymousItem
           [Sample.answersItem]);
    vm_compute; reflexivity.
Defined.

(** ** Modern items *)

Lemma v2SimpleChoice_fields q c :
  q_type (v2SimpleChoice q c) = q_type q
  ∧ q_correctAnswer (v2SimpleChoice q c) = q_correctAnswer q.
Proof. unfold v2SimpleChoice. by destruct (Xml.getAttribute "identifier" c). Qed.

Lemma v2Choices_type body q : q_type (v2Choices body q) = q_type q.
Proof.
  unfold v2Choices. destruct (Xml.getChild "choiceInteraction" body); [|done].
  apply (foldl_preserves v2SimpleChoice q_type), v2SimpleChoice_fields.
Qed.

Lemma v2Choices_answer body q :
  q_correctAnswer (v2Choices body q) = q_correctAnswer q.
Proof.
  unfold v2Choices. destruct (Xml.getChild "choiceInteraction" body); [|done].
  apply (foldl_preserves v2SimpleChoice q_correctAnswer), v2SimpleChoice_fields.
Qed.

Lemma v2Text_fields body q :
  q_type (v2Text body q) = q_type q
  ∧ q_correctAnswer (v2Text body q) = q_correctAnswer q.
Proof. unfold v2Text. by destruct (Xml.getChild "prompt" body). Qed.

Lemma v2ItemBody_type item q :
  q_type q = "" → q_type (v2ItemBody item q) = v2InferredType item.
Proof.
  intros Hq. unfold v2ItemBody, v2InferredType.
  destruct (Xml.getChild "itemBody" item) as [body|]; [|done].
  rewrite v2Choices_type, (proj1 (v2Text_fields _ _)). unfold v2Type.
  destruct (Xml.getChild "choiceInteraction" body); [done|].
  destruct (Xml.getChild "extendedTextInteraction" body); [done|].
  by destruct (Xml.getChild "textEntryInteraction" body).
Qed.

Lemma v2ItemBody_answer item q :
  q_correctAnswer (v2ItemBody item q) = q_correctAnswer q.
Proof.
  unfold v2ItemBody. destruct (Xml.getChild "itemBody" item) as [body|]; [|done].
  rewrite v2Choices_answer, (proj2 (v2Text_fields _ _)). unfold v2Type.
  by repeat case_bool_decide.
Qed.

(** The step that reads the correct response leaves the type alone. *)
Lemma v2CorrectAnswer_type item q : q_type (v2CorrectAnswer item q) = q_type q.
Proof.
  unfold v2CorrectAnswer.
  destruct (Xml.getChild "responseDeclaration" item) as [rd|]; [|done].
  destruct (Xml.getChild "correctResponse" rd) as [cr|]; [|done].
  by destruct (Xml.getChildren "value" cr) as [|? [|? ?]].
Qed.

Lemma v2CorrectAnswer_answer item q :
  q_correctAnswer (v2CorrectAnswer item q)
  = match v2CorrectValues item with
    | Some [v] => AString (Xml.getText v)
    | Some (v :: w :: values) => AArray (Xml.getText <$> v :: w :: values)
    | _ => q_correctAnswer q
    end.
Proof.
  unfold v2CorrectAnswer, v2CorrectValues.
  destruct (Xml.getChild "responseDeclaration" item) as [rd|]; [|done]. simpl.
  destruct (Xml.getChild "correctResponse" rd) as [cr|]; [|done]. simpl.
  by destruct (Xml.getChildren "value" cr) as [|? [|? ?]].
Qed.

Lemma parseQtiv2Item_null getUuid item n :
  (parseQtiv2Item getUuid item n).1 = None
  ↔ Xml.getAttribute "identifier" item = None ∧ getUuid n = None.
Proof.
  unfold parseQtiv2Item, idOrUuid, Utilities_getUuid.
  destruct (Xml.getAttribute "identifier" item) as [i|]; simpl.
  - split; [done | by intros [? _]].
  - destruct (getUuid n) as [u|]; simpl; [|done].
    split; [done | by intros [_ ?]].
Qed.

Lemma parseQtiv2Item_question getUuid item n q :
  (parseQtiv2Item getUuid item n).1 = Some q →
  q_type q = v2InferredType item
  ∧ q_correctAnswer q
    = match v2CorrectValues item with
      | Some [v] => AString (Xml.getText v)
      | Some (v :: w :: values) => AArray (Xml.getText <$> v :: w :: values)
      | _ => ANull
      end.
Proof.
  unfold parseQtiv2Item, idOrUuid, Utilities_getUuid.
  assert (∀ i, q_type (v2CorrectAnswer item (v2ItemBody item
                 (mkQuestion i (default "" (Xml.getAttribute "title" item)) "" "" [] ANull 1)))
               = v2InferredType item) as Hty.
  { intros i. rewrite v2CorrectAnswer_type. by apply v2ItemBody_type. }
  destruct (Xml.getAttribute "identifier" item) as [i|]; simpl.
  - intros [= <-]. split; [apply Hty|].
    by rewrite v2CorrectAnswer_answer, v2ItemBody_answer.
  - destruct (getUuid n) as [u|]; simpl; [|done].
    intros [= <-]. split; [apply Hty|].
    by rewrite v2CorrectAnswer_answer, v2ItemBody_answer.
Qed.

Lemma v2InferredType_values item :
  v2InferredType item ∈ [""; "multiple_choice_question"; "essay_question";
                          "short_answer_question"].
Proof.
  unfold v2InferredType.
  destruct (Xml.getChild "itemBody" item) as [body|]; [|set_solver].
  destruct (Xml.getChild "choiceInteraction" body); [set_solver|].
  destruct (Xml.getChild "extendedTextInteraction" body); [set_solver|].
  destruct (Xml.getChild "textEntryInteraction" body); set_solver.
Qed.

(** C6. For a modern item with a correct response: one [value] child
    makes [correctAnswer] the text of that value, several make it the
    list of their texts, and in both cases the type is the one inferred
    from the interaction element, which is never
    [multiple_answers_question]. *)
Theorem modern_answer_scalar_or_list getUuid item n q values :
  (parseQtiv2Item getUuid item n).1 = Some q →
  v2CorrectValues item = Some values →
  (∀ v, values = [v] → q_correctAnswer q = AString (Xml.getText v))
  ∧ (1 < length values → q_correctAnswer q = AArray (Xml.getText <$> values))
  ∧ q_type q = v2InferredType item
  ∧ q_type q ≠ "multiple_answers_question".
Proof.
  intros Hq Hvalues. apply parseQtiv2Item_question in Hq as [Hty Hans].
  rewrite Hvalues in Hans. repeat split.
  - by intros v ->.
  - destruct values as [|v [|w values]]; simpl; [lia| lia |done].
  - done.
  - rewrite Hty. pose proof (v2InferredType_values item) as Hin.
    intros Heq. rewrite Heq, !elem_of_cons, elem_of_nil in Hin.
    intuition discriminate.
Qed.

Lemma modern_answer_witness :
  q_correctAnswer (Sample.modernQuestion (AArray ["A"; "B"])) = AArray ["A"; "B"]
  ∧ q_type (Sample.modernQuestion (AArray ["A"; "B"])) ≠ "multiple_answers_question".
Proof.
  destruct (modern_answer_scalar_or_list
              Sample.noUuid (Sample.modernItem ["A"; "B"]) 0
              (Sample.modernQuestion (AArray ["A"; "B"]))
              (Xml.leaf "value" <$> ["A"; "B"]))
    as (_ & Hlist & _ & Hty); [vm_compute; reflexivity ..|].
  split; [apply Hlist; simpl; lia | exact Hty].
Defined.

Example parse_modern_single :
  parseQtiv2Item Sample.noUuid (Sample.modernItem ["B"]) 0
  = (Some (Sample.modernQuestion (AString "B")), 0).
Proof. vm_compute. reflexivity. Qed.

(** C8. A modern item whose body holds no recognised interaction is
    normalised to a question whose type is the empty string; in both
    pathways the type found is kept as it is, and the normaliser returns
    a question whenever the item carries its identifier or the
    identifier service answers, whatever the type. *)
Theorem unrecognised_type_is_kept getUuid item n :
  (is_Some (Xml.getAttribute "identifier" item) ∨ is_Some (getUuid n) →
   ∃ q, (parseQtiv2Item getUuid item n).1 = Some q
        ∧ q_type q = v2InferredType item
        ∧ (noKnownInteraction item = true → q_type q = ""))
  ∧ (is_Some (Xml.getAttribute "ident" item) ∨ is_Some (getUuid n) →
     ∃ q, (parseQtiv1Item getUuid item n).1 = Some q
          ∧ q_type q = v1MetadataType item).
Proof.
  split; intros Hid.
  - destruct (parseQtiv2Item getUuid item n).1 as [q|] eqn:Hq.
    + exists q. apply parseQtiv2Item_question in Hq as [Hty _].
      repeat split; [done|]. rewrite Hty. unfold noKnownInteraction, v2InferredType.
      destruct (Xml.getChild "itemBody" item) as [body|]; [|done].
      destruct (Xml.getChild "choiceInteraction" body); [done|].
      destruct (Xml.getChild "extendedTextInteraction" body); [done|].
      by destruct (Xml.getChild "textEntryInteraction" body).
    + apply parseQtiv2Item_null in Hq as [H1 H2]. rewrite H1, H2 in Hid.
      by destruct Hid as [[? ?]|[? ?]].
  - destruct (parseQtiv1Item getUuid item n).1 as [q|] eqn:Hq.
    + exists q. by apply parseQtiv1Item_question in Hq as [Hty _].
    + apply parseQtiv1Item_null in Hq as [H1 H2]. rewrite H1, H2 in Hid.
      by destruct Hid as [[? ?]|[? ?]].
Qed.

Lemma unrecognised_type_witness :
  ∃ q, (parseQtiv2Item Sample.noUuid Sample.orderItem 0).1 = Some q ∧ q_type q = "".
Proof.
  destruct (unrecognised_type_is_kept Sample.noUuid Sample.orderItem 0) as [H _].
  destruct H as (q & Hq & _ & Hty); [left; by eexists|].
  exists q. split; [exact Hq|]. apply Hty. vm_compute. reflexivity.
Defined.

Example parse_orderItem :
  parseQtiv2Item Sample.noUuid Sample.orderItem 0 = (Some Sample.orderQuestion, 0).
Proof. vm_compute. reflexivity. Qed.

(** ** Graded forms *)

Lemma addQuestionToForm_keeps form question :
  form_isQuiz (addQuestionToForm form question).1 = form_isQuiz form
  ∧ q_correctAnswer (addQuestionToForm form question).2 = q_correctAnswer question.
Proof.
  unfold addQuestionToForm.
  destruct (negb (Js.truthy (q_text question)) || Js.isBlank (q_text question));
    by destruct (formItemFor _).
Qed.

Lemma addQuestions_keeps questions : ∀ form seen,
  let r := foldl (λ st question,
                    let '(form', question') := addQuestionToForm st.1 question in
                    (form', st.2 ++ [question']))
                 (form, seen) questions in
  form_isQuiz r.1 = form_isQuiz form
  ∧ q_correctAnswer <$> r.2 = q_correctAnswer <$> (seen ++ questions).
Proof.
  induction questions as [|qn questions IH]; intros form seen; simpl.
  - by rewrite app_nil_r.
  - pose proof (addQuestionToForm_keeps form qn) as [Hquiz Hans].
    destruct (addQuestionToForm form qn) as [form' qn']. simpl in *.
    destruct (IH form' (seen ++ [qn'])) as [IH1 IH2]. split.
    + by rewrite IH1.
    + rewrite IH2, !fmap_app, <- app_assoc. simpl. by rewrite Hans.
Qed.

Lemma existsb_hasAnswer_fmap l1 l2 :
  q_correctAnswer <$> l1 = q_correctAnswer <$> l2 →
  existsb hasAnswer l1 = existsb hasAnswer l2.
Proof.
  revert l2. induction l1 as [|x l1 IH]; intros [|y l2] H; try done.
  simpl in *. injection H as Hxy Hrest. rewrite (IH _ Hrest).
  unfold hasAnswer. by rewrite Hxy.
Qed.

Lemma existsb_hasAnswer questions :
  existsb hasAnswer questions = true ↔ someAnswered questions.
Proof.
  unfold someAnswered. rewrite existsb_exists. split.
  - intros (qn & Hin & Hans). exists qn. apply list_elem_of_In in Hin.
    unfold hasAnswer in Hans. apply andb_true_iff in Hans as [H1 H2].
    by apply bool_decide_eq_true in H1, H2.
  - intros (qn & Hin & H1 & H2). exists qn. apply list_elem_of_In in Hin.
    split; [done|]. unfold hasAnswer. by rewrite !bool_decide_eq_true_2.
Qed.

Lemma createForm_isQuiz identifier content :
  form_isQuiz (createForm identifier content) = existsb hasAnswer (qc_questions content).
Proof.
  unfold createForm, addQuestions.
  set (form0 := if Js.truthy (qc_description content) then _ else _).
  assert (form_isQuiz form0 = false) as H0.
  { unfold form0. by destruct (Js.truthy (qc_description content)). }
  pose proof (addQuestions_keeps (qc_questions content) form0 []) as [Hquiz Hans].
  simpl in Hquiz, Hans.
  destruct (foldl _ (form0, []) (qc_questions content)) as [form questions].
  simpl in *. rewrite (existsb_hasAnswer_fmap _ _ Hans).
  destruct (existsb hasAnswer (qc_questions content)); [done|].
  by rewrite Hquiz.
Qed.

Lemma createGoogleForms_rows quizzes :
  createGoogleForms quizzes = omap formResult quizzes.
Proof.
  unfold createGoogleForms.
  enough (∀ results,
            foldl (λ results quiz,
                     match quiz_content quiz with
                     | None => results
                     | Some content =>
                         results ++ [(createForm (r_identifier (quiz_info quiz)) content,
                                      length (qc_questions content))]
                     end) results quizzes
            = results ++ omap formResult quizzes) as H by apply (H []).
  induction quizzes as [|quiz quizzes IH]; intros results; simpl.
  - by rewrite app_nil_r.
  - rewrite IH. unfold formResult at 2.
    destruct (quiz_content quiz); simpl; [|done].
    by rewrite <- app_assoc.
Qed.

(** C9. [createGoogleForms] makes one form for each quiz that has
    content, in order, and that form is set to be a quiz if and only if
    some question of the quiz has a [correctAnswer] that is neither null
    nor undefined. *)
Theorem form_graded_iff_some_answer :
  (∀ quizzes, createGoogleForms quizzes = omap formResult quizzes)
  ∧ (∀ identifier content,
       form_isQuiz (createForm identifier content) = true
       ↔ someAnswered (qc_questions content)).
Proof.
  split; [apply createGoogleForms_rows|].
  intros identifier content.
  by rewrite createForm_isQuiz, existsb_hasAnswer.
Qed.

(** ** Locating the manifest *)


(** On a tree whose subfolder holds a file named [imsmanifest.xml]
    (extraction builds no such tree), and on the tree extracted from an
    archive whose manifest is the entry [course/imsmanifest.xml], the
    lookup raises the not-found error. *)
Lemma manifest_in_subfolder_not_found :
  (∃ f, f ∈ getAllFilesInFolder Sample.courseTree ∧ f_name f = "imsmanifest.xml")
  ∧ findAndParseManifest Sample.parseManifest Sample.courseTree
    = Throw manifestNotFound
  ∧ extractIMSCC Sample.courseBlobs Sample.tempFolder
    = Normal (Sample.extractedCourse,
              [mkFile "course/imsmanifest.xml" "<manifest/>"])
  ∧ findAndParseManifest Sample.parseManifest Sample.extractedCourse
    = Throw manifestNotFound.
Proof.
  split; [|by vm_compute].
  exists (mkFile "imsmanifest.xml" "<manifest/>"). split; [|done].
  vm_compute. left.
Qed.

(** ** Locating the quiz body *)

Lemma scanDeclaredFiles_first tempFolder files :
  (scanDeclaredFiles tempFolder files).1
  = head (omap (findFileByPath tempFolder)
               (filter (λ p, Js.endsWith p ".xml" = true) files)).
Proof.
  induction files as [|p files IH]; [done|].
  simpl. rewrite filter_cons.
  destruct (Js.endsWith p ".xml") eqn:Hxml.
  - rewrite decide_True by done.
    change (omap (findFileByPath tempFolder) (p :: ?l))
      with (match findFileByPath tempFolder p with
            | Some y => y :: omap (findFileByPath tempFolder) l
            | None => omap (findFileByPath tempFolder) l
            end).
    by destruct (findFileByPath tempFolder p).
  - by rewrite decide_False by done.
Qed.

(** The loop over the declared files never writes the fallback notice. *)
Lemma scanDeclaredFiles_quiet tempFolder files :
  fallbackNotice ∉ (scanDeclaredFiles tempFolder files).2.
Proof.
  induction files as [|p files IH]; simpl; [apply not_elem_of_nil|].
  destruct (Js.endsWith p ".xml"); [|done].
  destruct (findFileByPath tempFolder p); [|done].
  simpl. rewrite elem_of_cons, elem_of_nil. by intros [[= ?]|[]].
Qed.

Lemma scanAllFiles_first identifier allFiles :
  (scanAllFiles identifier allFiles).1
  = head (filter (λ f, Js.endsWith (f_name f) ".xml" = true
                       ∧ looksLikeQuiz identifier (f_data f) = true) allFiles).
Proof.
  induction allFiles as [|f allFiles IH]; [done|].
  simpl. rewrite filter_cons.
  by destruct (Js.endsWith (f_name f) ".xml"), (looksLikeQuiz identifier (f_data f)).
Qed.

(** The value of [quizFile] once the first two blocks have run. *)
Lemma findQuizFile_cases quiz tempFolder :
  let r := findQuizFile quiz tempFolder in
  match byHref quiz tempFolder, byDeclaredFiles quiz tempFolder with
  | Some f, _ => r.1 = Some f ∧ r.2 = []
  | None, Some f => r.1 = Some f ∧ fallbackNotice ∉ r.2
  | None, None => r.1 = byContent quiz tempFolder ∧ fallbackNotice ∈ r.2
  end.
Proof.
  unfold findQuizFile, byHref, byDeclaredFiles, byContent. simpl.
  assert ((if Js.truthy (r_href quiz) then findFileByPath tempFolder (r_href quiz)
           else None) = findFileByPath tempFolder (r_href quiz)) as ->.
  { unfold Js.truthy. case_bool_decide as Hh; [|done]. by rewrite Hh. }
  destruct (findFileByPath tempFolder (r_href quiz)) as [f|]; [done|]. simpl.
  rewrite <- scanDeclaredFiles_first.
  pose proof (scanDeclaredFiles_quiet tempFolder (r_files quiz)) as Hquiet.
  assert ((if bool_decide (0 < length (r_files quiz))
           then scanDeclaredFiles tempFolder (r_files quiz)
           else (None, []))
          = scanDeclaredFiles tempFolder (r_files quiz)) as ->.
  { case_bool_decide as Hlen; [done|]. destruct (r_files quiz); [done|simpl in Hlen; lia]. }
  destruct (scanDeclaredFiles tempFolder (r_files quiz)) as [[f|] log2]; simpl in *;
    [done|].
  rewrite <- scanAllFiles_first.
  destruct (scanAllFiles _ _) as [quizFile3 log3]. simpl.
  split; [done|]. rewrite elem_of_app, elem_of_cons. auto.
Qed.

Lemma findQuizFile_resolves quiz tempFolder :
  (findQuizFile quiz tempFolder).1 = resolveContent quiz tempFolder.
Proof.
  pose proof (findQuizFile_cases quiz tempFolder) as H. simpl in H.
  unfold resolveContent.
  by destruct (byHref quiz tempFolder), (byDeclaredFiles quiz tempFolder);
    destruct H as [-> _].
Qed.

(** The body that is parsed is the one the three strategies settle on;
    without one, or when it is not XML, the quiz is a placeholder. *)
Lemma findAndParseQuizContent_resolves xmlParse getUuid quiz tempFolder n :
  findAndParseQuizContent xmlParse getUuid quiz tempFolder n
  = match resolveContent quiz tempFolder with
    | None => (placeholder quiz, n)
    | Some quizFile =>
        match xmlParse (f_data quizFile) with
        | Normal document => parseQuizXml getUuid document quiz n
        | Throw _ => (placeholder quiz, n)
        end
    end.
Proof. unfold findAndParseQuizContent. by rewrite findQuizFile_resolves. Qed.

Lemma omap_all_none {A B} (f : A → option B) (l : list A) :
  (∀ x, x ∈ l → f x = None) → omap f l = [].
Proof.
  induction l as [|x l IH]; intros H; [done|].
  change (omap f (x :: l))
    with (match f x with Some y => y :: omap f l | None => omap f l end).
  rewrite (H x) by left. apply IH. intros y Hy. apply H. by right.
Qed.

(** The declared files up to the first one that ends in [.xml] and
    resolves decide the second strategy. *)
Lemma byDeclaredFiles_first quiz tempFolder before path after f :
  r_files quiz = before ++ path :: after →
  (∀ p, p ∈ before → Js.endsWith p ".xml" = true → findFileByPath tempFolder p = None) →
  Js.endsWith path ".xml" = true →
  findFileByPath tempFolder path = Some f →
  byDeclaredFiles quiz tempFolder = Some f.
Proof.
  intros Hfiles Hbefore Hxml Hf. unfold byDeclaredFiles.
  rewrite Hfiles, filter_app, filter_cons, decide_True, omap_app by done.
  rewrite omap_all_none.
  - change (omap (findFileByPath tempFolder) (path :: ?l))
      with (match findFileByPath tempFolder path with
            | Some y => y :: omap (findFileByPath tempFolder) l
            | None => omap (findFileByPath tempFolder) l
            end).
    by rewrite Hf.
  - intros p [Hp Hin]%list_elem_of_filter. by apply Hbefore.
Qed.

Lemma getAllFilesInFolder_unfold name fs subs :
  getAllFilesInFolder (mkFolder name fs subs)
  = fs ++ flat_map getAllFilesInFolder subs.
Proof.
  simpl. revert fs. induction subs as [|x subs IH]; intros fs; simpl.
  - by rewrite app_nil_r.
  - by rewrite IH, <- app_assoc.
Qed.

Global Arguments getAllFilesInFolder : simpl never.

Lemma FileIn_listed f : ∀ d, FileIn f d → f ∈ getAllFilesInFolder d.
Proof.
  induction 1 as [name files folders Hf | name files folders sub Hsub _ IH];
    rewrite getAllFilesInFolder_unfold; apply elem_of_app; [by left|right].
  apply list_elem_of_In, in_flat_map. exists sub.
  split; by apply list_elem_of_In.
Qed.

Lemma listed_FileIn f : ∀ d, f ∈ getAllFilesInFolder d → FileIn f d.
Proof.
  fix IH 1. intros [name files folders]. rewrite getAllFilesInFolder_unfold.
  intros [Hf|Hf]%elem_of_app; [by apply FileIn_here|].
  assert (∃ sub, sub ∈ folders ∧ FileIn f sub) as (sub & Hsub & Hin).
  { clear name files. induction folders as [|d folders IHd]; simpl in Hf.
    - by apply elem_of_nil in Hf.
    - apply elem_of_app in Hf as [Hf|Hf].
      + exists d. split; [left|by apply IH].
      + destruct (IHd Hf) as (sub & Hsub & Hin). exists sub. split; [by right|done]. }
  by apply (FileIn_below f name files folders sub).
Qed.

(** The whole-tree listing returns exactly the files of the tree. *)
Lemma getAllFilesInFolder_FileIn f d : f ∈ getAllFilesInFolder d ↔ FileIn f d.
Proof. split; [apply listed_FileIn|apply FileIn_listed]. Qed.

Lemma looksLikeQuiz_quizLike identifier content :
  looksLikeQuiz identifier content = true ↔ quizLike identifier content.
Proof.
  unfold looksLikeQuiz, quizLike. rewrite !orb_true_iff. split.
  - intros [[[H|H]|H]|H]; eexists; (split; [|exact H]);
      rewrite !elem_of_cons; auto.
  - intros (word & Hin & H). rewrite !elem_of_cons, elem_of_nil in Hin.
    destruct Hin as [->|[->|[->|[->|[]]]]]; auto.
Qed.

(** The third strategy, whatever the order of the listing: its answer
    is an [.xml] file of the tree with quiz-like text, and it has none
    only when the tree holds no such file. *)
Lemma byContent_whole_tree quiz tempFolder :
  (∀ f, byContent quiz tempFolder = Some f →
        FileIn f tempFolder
        ∧ Js.endsWith (f_name f) ".xml" = true
        ∧ quizLike (r_identifier quiz) (f_data f))
  ∧ (byContent quiz tempFolder = None →
     ∀ f, FileIn f tempFolder →
          Js.endsWith (f_name f) ".xml" = true →
          ¬ quizLike (r_identifier quiz) (f_data f)).
Proof.
  unfold byContent.
  destruct (filter _ (getAllFilesInFolder tempFolder)) as [|g l] eqn:Hfilter; simpl.
  - split; [done|]. intros _ f Hin Hxml Hquiz.
    apply (filter_nil_not_elem_of _ _ f Hfilter).
    + split; [done|by apply looksLikeQuiz_quizLike].
    + by apply getAllFilesInFolder_FileIn.
  - split; [|done]. intros f [= <-].
    assert (g ∈ filter (λ f, Js.endsWith (f_name f) ".xml" = true
                             ∧ looksLikeQuiz (r_identifier quiz) (f_data f) = true)
                       (getAllFilesInFolder tempFolder))
      as [[Hxml Hquiz] Hin]%list_elem_of_filter by (rewrite Hfilter; left).
    split; [by apply getAllFilesInFolder_FileIn|].
    split; [done|by apply looksLikeQuiz_quizLike].
Qed.

(** C3, as the program behaves: the file [findAndParseQuizContent]
    settles on is the first success among: the [href] resolved as a
    path; the first declared file ending in [.xml] that resolves; an
    [.xml] file of the whole tree with quiz-like text, missing only
    when the tree has none.  The whole-tree search is entered only when
    the first two fail.  When the [href] does not resolve and the
    declared files hold an existing [quiz1.xml], the second strategy
    answers and the whole-tree search is not reached; the answer is the
    first declared [.xml] file that resolves, which is [quiz1.xml] when
    no declared [.xml] file before it resolves. *)
Theorem content_resolution_priority quiz tempFolder :
  (findQuizFile quiz tempFolder).1 = resolveContent quiz tempFolder
  ∧ ((∀ f, byContent quiz tempFolder = Some f →
           FileIn f tempFolder
           ∧ Js.endsWith (f_name f) ".xml" = true
           ∧ quizLike (r_identifier quiz) (f_data f))
     ∧ (byContent quiz tempFolder = None →
        ∀ f, FileIn f tempFolder →
             Js.endsWith (f_name f) ".xml" = true →
             ¬ quizLike (r_identifier quiz) (f_data f)))
  ∧ (fallbackNotice ∈ (findQuizFile quiz tempFolder).2
     ↔ byHref quiz tempFolder = None ∧ byDeclaredFiles quiz tempFolder = None)
  ∧ (∀ f, byHref quiz tempFolder = None →
          byDeclaredFiles quiz tempFolder = Some f →
          (findQuizFile quiz tempFolder).1 = Some f
          ∧ fallbackNotice ∉ (findQuizFile quiz tempFolder).2)
  ∧ (∀ f, byHref quiz tempFolder = None →
          "quiz1.xml" ∈ r_files quiz →
          findFileByPath tempFolder "quiz1.xml" = Some f →
          is_Some (byDeclaredFiles quiz tempFolder)
          ∧ (findQuizFile quiz tempFolder).1 = byDeclaredFiles quiz tempFolder
          ∧ fallbackNotice ∉ (findQuizFile quiz tempFolder).2)
  ∧ (∀ f before after,
          byHref quiz tempFolder = None →
          r_files quiz = before ++ "quiz1.xml" :: after →
          (∀ p, p ∈ before → Js.endsWith p ".xml" = true →
                findFileByPath tempFolder p = None) →
          findFileByPath tempFolder "quiz1.xml" = Some f →
          (findQuizFile quiz tempFolder).1 = Some f
          ∧ fallbackNotice ∉ (findQuizFile quiz tempFolder).2).
Proof.
  pose proof (findQuizFile_cases quiz tempFolder) as H. simpl in H.
  split; [apply findQuizFile_resolves|].
  split; [apply byContent_whole_tree|].
  assert (∀ f, byHref quiz tempFolder = None →
               "quiz1.xml" ∈ r_files quiz →
               findFileByPath tempFolder "quiz1.xml" = Some f →
               is_Some (byDeclaredFiles quiz tempFolder)) as Hquiz1.
  { intros f _ Hin Hf. unfold byDeclaredFiles.
    assert (f ∈ omap (findFileByPath tempFolder)
                     (filter (λ p, Js.endsWith p ".xml" = true) (r_files quiz))) as Hf'.
    { apply list_elem_of_omap. exists "quiz1.xml". split; [|done].
      by apply list_elem_of_filter. }
    destruct (omap _ _) as [|g l]; [by apply elem_of_nil in Hf'|by eexists]. }
  assert (∀ f before after,
            r_files quiz = before ++ "quiz1.xml" :: after →
            (∀ p, p ∈ before → Js.endsWith p ".xml" = true →
                  findFileByPath tempFolder p = None) →
            findFileByPath tempFolder "quiz1.xml" = Some f →
            byDeclaredFiles quiz tempFolder = Some f) as Hfirst.
  { intros f before after Hfiles Hbefore Hf.
    by apply (byDeclaredFiles_first _ _ before "quiz1.xml" after). }
  destruct (byHref quiz tempFolder) as [f1|], (byDeclaredFiles quiz tempFolder) as [f2|];
    destruct H as [H1 H2]; rewrite ?H1, ?H2.
  - split; [split; [by intros ?%elem_of_nil | by intros [? _]]|].
    repeat split; by intros.
  - split; [split; [by intros ?%elem_of_nil | by intros [? _]]|].
    repeat split; by intros.
  - split; [split; [done | by intros [_ ?]]|].
    split; [by intros f _ [= <-]|].
    split; [intros f _ _ _; by split; [eexists|]|].
    intros f before after _ Hfiles Hbefore Hf.
    by rewrite <- (Hfirst f before after Hfiles Hbefore Hf).
  - split; [done|]. split; [by intros f _ ?|].
    split; [intros f Hh Hin Hf; by destruct (Hquiz1 f Hh Hin Hf)|].
    intros f before after _ Hfiles Hbefore Hf.
    by specialize (Hfirst f before after Hfiles Hbefore Hf).
Qed.

Lemma content_resolution_witness :
  (findQuizFile Sample.quizResource Sample.quizTree).1 = Some Sample.quiz1File
  ∧ fallbackNotice ∉ (findQuizFile Sample.quizResource Sample.quizTree).2.
Proof.
  destruct (content_resolution_priority Sample.quizResource Sample.quizTree)
    as (_ & _ & _ & _ & _ & H).
  apply (H Sample.quiz1File ["style.css"] []); try (vm_compute; reflexivity).
  intros p ->%list_elem_of_singleton. vm_compute. discriminate.
Defined.

(** C3, as stated, fails: the archive with the entries [other.xml] and
    [quiz1.xml] extracts to a tree with both files at its root; for a
    resource whose [href] does not resolve and that declares
    [other.xml] before [quiz1.xml], the declared files hold an existing
    [quiz1.xml], yet the file settled on is [other.xml]. *)
Lemma declared_quiz1_is_not_returned :
  extractIMSCC Fixture.twoBodiesBlobs Sample.tempFolder
  = Normal (Fixture.twoBodiesTree, [Fixture.otherFile; Sample.quiz1File])
  ∧ findFileByPath Fixture.twoBodiesTree (r_href Fixture.twoBodiesResource) = None
  ∧ "quiz1.xml" ∈ r_files Fixture.twoBodiesResource
  ∧ findFileByPath Fixture.twoBodiesTree "quiz1.xml" = Some Sample.quiz1File
  ∧ (findQuizFile Fixture.twoBodiesResource Fixture.twoBodiesTree).1
    = Some Fixture.otherFile
  ∧ Fixture.otherFile ≠ Sample.quiz1File
  ∧ ¬ (∀ quiz tempFolder f,
         findFileByPath tempFolder (r_href quiz) = None →
         "quiz1.xml" ∈ r_files quiz →
         findFileByPath tempFolder "quiz1.xml" = Some f →
         (findQuizFile quiz tempFolder).1 = Some f).
Proof.
  assert ("quiz1.xml" ∈ r_files Fixture.twoBodiesResource) as Hin
    by (right; left).
  repeat split; try (vm_compute; reflexivity); try exact Hin.
  - discriminate.
  - intros H.
    specialize (H Fixture.twoBodiesResource Fixture.twoBodiesTree Sample.quiz1File
                  eq_refl Hin eq_refl).
    vm_compute in H. discriminate.
Qed.

(** Left to the whole-tree search alone, the same resource would have
    been given the manifest, which comes first and mentions an
    assessment. *)
Example whole_tree_search_would_differ :
  byContent Sample.quizResource Sample.quizTree = Some Sample.manifestFile.
Proof. vm_compute. reflexivity. Qed.

(** ** Extraction *)

Lemma updateFirst_names name f ds :
  (∀ d, d_name (f d) = d_name d) →
  d_name <$> Drive.updateFirst name f ds = d_name <$> ds.
Proof.
  intros Hf. induction ds as [|d ds IH]; csimpl; [done|].
  case_bool_decide; csimpl; [by rewrite Hf | by rewrite IH].
Qed.

Lemma updateFirst_ext name f f' ds :
  (∀ d, f d = f' d) → Drive.updateFirst name f ds = Drive.updateFirst name f' ds.
Proof.
  intros Hf. induction ds as [|d ds IH]; simpl; [done|].
  case_bool_decide; [by rewrite Hf | by rewrite IH].
Qed.

Lemma updateFirst_twice name f f' ds :
  (∀ d, d_name (f d) = d_name d) →
  Drive.updateFirst name f' (Drive.updateFirst name f ds)
  = Drive.updateFirst name (λ d, f' (f d)) ds.
Proof.
  intros Hf. induction ds as [|d ds IH]; simpl; [done|].
  case_bool_decide as Hd; simpl.
  - by rewrite Hf, bool_decide_eq_true_2.
  - by rewrite bool_decide_eq_false_2, IH.
Qed.

(** The folders of a name after the first of them has been changed by a
    function that keeps names. *)
Lemma filter_updateFirst name f ds :
  (∀ d, d_name (f d) = d_name d) →
  filter (λ s, d_name s = name) (Drive.updateFirst name f ds)
  = match filter (λ s, d_name s = name) ds with
    | [] => []
    | x :: xs => f x :: xs
    end.
Proof.
  intros Hf. induction ds as [|d ds IH]; simpl; [done|].
  case_bool_decide as Hd.
  - rewrite !filter_cons, !decide_True; [done..|]. by rewrite Hf.
  - by rewrite !filter_cons, !decide_False.
Qed.

Lemma filter_updateFirst_other name other f ds :
  (∀ d, d_name (f d) = d_name d) → name ≠ other →
  filter (λ s, d_name s = name) (Drive.updateFirst other f ds)
  = filter (λ s, d_name s = name) ds.
Proof.
  intros Hf Hne. induction ds as [|d ds IH]; simpl; [done|].
  case_bool_decide as Hd.
  - rewrite !filter_cons, !decide_False; [done| |]; rewrite ?Hf; congruence.
  - rewrite !filter_cons, IH. done.
Qed.

Lemma Forall_updateFirst (P : Folder → Prop) name f ds :
  (∀ d, P d → P (f d)) → Forall P ds → Forall P (Drive.updateFirst name f ds).
Proof.
  intros Hf. induction 1 as [|d ds Hd Hds IH]; simpl; [done|].
  case_bool_decide; constructor; auto.
Qed.

Lemma filesAt_cons name dirs d :
  filesAt (name :: dirs) d
  = if negb (Js.truthy name) then filesAt dirs d
    else match Drive.getFoldersByName name d with
         | next :: _ => filesAt dirs next
         | [] => []
         end.
Proof.
  unfold filesAt. simpl. destruct (negb (Js.truthy name)); [done|].
  by destruct (Drive.getFoldersByName name d).
Qed.

Lemma not_elem_of_names name (ds : list Folder) :
  filter (λ s, d_name s = name) ds = [] → name ∉ d_name <$> ds.
Proof.
  intros Hfilter (d & -> & Hin)%list_elem_of_fmap.
  by apply (filter_nil_not_elem_of _ _ d Hfilter).
Qed.

Section AtPath.

(** [g] changes the folder it is applied to only by adding the files
    [extra]. *)
Variable g : Folder → Folder.
Variable extra : list File.
Hypothesis g_name : ∀ d, d_name (g d) = d_name d.
Hypothesis g_folders : ∀ d, Drive.getFolders (g d) = Drive.getFolders d.
Hypothesis g_files : ∀ d, Drive.getFiles (g d) = Drive.getFiles d ++ extra.

Lemma atPath_name dirs : ∀ d, d_name (atPath g dirs d) = d_name d.
Proof using g_name.
  induction dirs as [|name dirs IH]; intros d; simpl; [done|].
  destruct (negb (Js.truthy name)); [done|].
  by destruct (Drive.getFoldersByName name d).
Qed.

Lemma atPath_unique dirs : ∀ d, UniqueNames d → UniqueNames (atPath g dirs d).
Proof using g_name g_folders.
  induction dirs as [|name dirs IH]; intros d Hd; simpl.
  - specialize (g_folders d). destruct (g d) as [n fs subs], Hd as [n' fs' subs' H1 H2].
    simpl in g_folders. subst. by constructor.
  - destruct (negb (Js.truthy name)); [by apply IH|].
    destruct Hd as [n fs subs Hnames Hsubs]. unfold Drive.getFoldersByName. simpl.
    destruct (filter _ subs) as [|x xs] eqn:Hfilter; constructor.
    + rewrite fmap_app. apply NoDup_app. split; [done|]. split; [|apply NoDup_singleton].
      intros y Hy. simpl. rewrite list_elem_of_singleton, atPath_name. simpl.
      intros ->. by apply (not_elem_of_names _ _ Hfilter).
    + apply Forall_app. split; [done|]. constructor; [|done].
      apply IH. constructor; [apply NoDup_nil_2|done].
    + rewrite updateFirst_names; [done|]. apply atPath_name.
    + by apply Forall_updateFirst.
Qed.

Lemma flat_map_updateFirst name f ds :
  (∀ d, getAllFilesInFolder (f d) ≡ₚ getAllFilesInFolder d ++ extra) →
  filter (λ s, d_name s = name) ds ≠ [] →
  flat_map getAllFilesInFolder (Drive.updateFirst name f ds)
  ≡ₚ flat_map getAllFilesInFolder ds ++ extra.
Proof.
  intros Hf. induction ds as [|d ds IH]; simpl; [done|].
  rewrite filter_cons. case_bool_decide as Hd.
  - intros _. simpl. rewrite Hf. rewrite <- !app_assoc.
    f_equiv. apply Permutation_app_comm.
  - rewrite decide_False by done. intros H. simpl. by rewrite IH, app_assoc.
Qed.

Lemma atPath_files dirs : ∀ d,
  getAllFilesInFolder (atPath g dirs d) ≡ₚ getAllFilesInFolder d ++ extra.
Proof using g_name g_folders g_files.
  induction dirs as [|name dirs IH]; intros d; simpl.
  - specialize (g_folders d). specialize (g_files d).
    destruct (g d) as [n fs subs], d as [n' fs' subs']. simpl in *. subst.
    rewrite !getAllFilesInFolder_unfold, <- !app_assoc.
    f_equiv. apply Permutation_app_comm.
  - destruct (negb (Js.truthy name)); [by apply IH|].
    destruct d as [n fs subs]. unfold Drive.getFoldersByName. simpl.
    destruct (filter _ subs) as [|x xs] eqn:Hfilter;
      unfold Drive.withFolders; simpl; rewrite !getAllFilesInFolder_unfold.
    + rewrite flat_map_app. simpl. rewrite app_nil_r, IH.
      unfold Drive.emptyFolder. rewrite getAllFilesInFolder_unfold. simpl.
      by rewrite app_assoc.
    + rewrite flat_map_updateFirst; [by rewrite app_assoc|done|].
      by rewrite Hfilter.
Qed.

(** The folder the segments lead to afterwards holds the added files. *)
Lemma atPath_reaches dirs : ∀ d f,
  f ∈ extra → f ∈ filesAt dirs (atPath g dirs d).
Proof using g_name g_files.
  induction dirs as [|name dirs IH]; intros d f Hf.
  - unfold filesAt. simpl. rewrite g_files. apply elem_of_app. by right.
  - rewrite filesAt_cons. simpl.
    destruct (negb (Js.truthy name)) eqn:Hname; [by apply IH|].
    destruct d as [n fs subs]. unfold Drive.getFoldersByName. simpl.
    destruct (filter _ subs) as [|x xs] eqn:Hfilter; simpl.
    + rewrite filter_app, Hfilter, filter_cons, decide_True by apply atPath_name.
      simpl. by apply IH.
    + rewrite filter_updateFirst, Hfilter by apply atPath_name. by apply IH.
Qed.

Lemma g_keeps p : ∀ d f, f ∈ filesAt p d → f ∈ filesAt p (g d).
Proof using g_folders g_files.
  induction p as [|name p IH]; intros d f.
  - unfold filesAt. simpl. rewrite g_files, elem_of_app. auto.
  - rewrite !filesAt_cons. destruct (negb (Js.truthy name)); [by apply IH|].
    unfold Drive.getFoldersByName. by rewrite g_folders.
Qed.

(** Files already reachable through a path stay reachable through it. *)
Lemma atPath_keeps q : ∀ p d f,
  f ∈ filesAt p d → f ∈ filesAt p (atPath g q d).
Proof using g_name g_folders g_files.
  induction q as [|m q IH]; intros p d f; [by apply g_keeps|].
  simpl. destruct (negb (Js.truthy m)); [by apply IH|].
  destruct d as [n fs subs]. unfold Drive.getFoldersByName. simpl.
  induction p as [|name p IHp]; [by destruct (filter _ subs)|].
  rewrite filesAt_cons.
  destruct (negb (Js.truthy name)) eqn:Hname.
  { intros Hf. specialize (IHp Hf).
    destruct (filter _ subs); by rewrite filesAt_cons, Hname. }
  unfold Drive.getFoldersByName. simpl. clear IHp.
  destruct (filter (λ s, d_name s = m) subs) as [|x xs] eqn:Hfilter; simpl;
    rewrite filesAt_cons, Hname; unfold Drive.getFoldersByName; simpl.
  - rewrite filter_app.
    destruct (filter (λ s, d_name s = name) subs); [by intros ?%elem_of_nil|done].
  - destruct (decide (name = m)) as [->|Hne].
    + rewrite filter_updateFirst, Hfilter by apply atPath_name. apply IH.
    + by rewrite filter_updateFirst_other by (done || apply atPath_name).
Qed.

End AtPath.

Lemma ensureFolders_atPath dirs : ∀ d, ensureFolders dirs d = atPath id dirs d.
Proof.
  induction dirs as [|name dirs IH]; intros d; simpl; [done|].
  destruct (negb (Js.truthy name)); [done|].
  destruct (Drive.getFoldersByName name d); [by rewrite IH|].
  f_equal. by apply updateFirst_ext.
Qed.

Lemma createFileIn_ensureFolders dirs blob : ∀ d,
  createFileIn dirs blob (ensureFolders dirs d) = atPath (Drive.createFile blob) dirs d.
Proof.
  induction dirs as [|name dirs IH]; intros d; simpl; [done|].
  destruct (negb (Js.truthy name)); [done|].
  destruct d as [n fs subs]. unfold Drive.getFoldersByName. simpl.
  destruct (filter _ subs) as [|x xs] eqn:Hfilter;
    unfold Drive.withFolders; simpl; f_equal.
  - assert (∀ l : list Folder, filter (λ s, d_name s = name) l = [] →
              Drive.updateFirst name (createFileIn dirs blob)
                (l ++ [ensureFolders dirs (Drive.emptyFolder name)])
              = l ++ [atPath (Drive.createFile blob) dirs (Drive.emptyFolder name)])
      as Hsnoc; [|by apply Hsnoc].
    induction l as [|y l IHl]; simpl.
    + intros _. rewrite bool_decide_eq_true_2; [by rewrite IH|].
      rewrite ensureFolders_atPath. by apply atPath_name.
    + rewrite filter_cons. case_bool_decide.
      * by rewrite decide_True.
      * rewrite decide_False by done. intros Hl. by rewrite IHl.
  - rewrite updateFirst_twice.
    + by apply updateFirst_ext.
    + intros d. rewrite ensureFolders_atPath. by apply atPath_name.
Qed.

Lemma archiveFiles_cons b extracted :
  archiveFiles (b :: extracted) = entryFiles b ++ archiveFiles extracted.
Proof.
  unfold archiveFiles, entryFiles. rewrite filter_cons.
  destruct (isFileEntry b); [by rewrite decide_True|by rewrite decide_False].
Qed.

(** What one round of the extraction loop does to the tree and to the
    array of extracted files. *)
Lemma extractBlob_step st b :
  (extractBlob st b).2 = st.2 ++ entryFiles b
  ∧ getAllFilesInFolder (extractBlob st b).1
    ≡ₚ getAllFilesInFolder st.1 ++ entryFiles b
  ∧ (∀ p f, f ∈ filesAt p st.1 → f ∈ filesAt p (extractBlob st b).1)
  ∧ (∀ f, f ∈ entryFiles b → f ∈ filesAt (entryFolder b) (extractBlob st b).1)
  ∧ (UniqueNames st.1 → UniqueNames (extractBlob st b).1).
Proof.
  unfold extractBlob, entryFiles, isFileEntry, entryFolder.
  destruct st as [tree out]. simpl.
  destruct (Js.endsWith (b_name b) "/"); simpl.
  { rewrite !app_nil_r. repeat split; try done. by intros f ?%elem_of_nil. }
  set (dirs := leadingParts (Js.split "/" (b_name b))).
  assert (∀ d, d_name (Drive.createFile b d) = d_name d) as Hn by done.
  assert (∀ d, Drive.getFolders (Drive.createFile b d) = Drive.getFolders d)
    as Hd by done.
  assert (∀ d, Drive.getFiles (Drive.createFile b d)
               = Drive.getFiles d ++ [Drive.fileOfBlob b]) as Hf by done.
  assert (∀ d : Folder, Drive.getFiles (id d) = Drive.getFiles d ++ [])
    as Hi by (intros d; by rewrite app_nil_r).
  destruct (last (Js.split "/" (b_name b))) as [segment|]; simpl;
    [destruct (Js.truthy segment); simpl|].
  - rewrite createFileIn_ensureFolders. repeat split.
    + by apply atPath_files.
    + intros p f. by apply (atPath_keeps _ [Drive.fileOfBlob b]).
    + intros f. by apply atPath_reaches.
    + by apply atPath_unique.
  - rewrite ensureFolders_atPath, app_nil_r. repeat split.
    + by apply (atPath_files id []).
    + intros p f. by apply (atPath_keeps id []).
    + by intros f ?%elem_of_nil.
    + by apply atPath_unique.
  - rewrite ensureFolders_atPath, app_nil_r. repeat split.
    + by apply (atPath_files id []).
    + intros p f. by apply (atPath_keeps id []).
    + by intros f ?%elem_of_nil.
    + by apply atPath_unique.
Qed.

(** The extraction loop as a whole. *)
Lemma extract_loop extracted : ∀ st,
  let r := foldl extractBlob st extracted in
  r.2 = st.2 ++ archiveFiles extracted
  ∧ getAllFilesInFolder r.1 ≡ₚ getAllFilesInFolder st.1 ++ archiveFiles extracted
  ∧ (∀ p f, f ∈ filesAt p st.1 → f ∈ filesAt p r.1)
  ∧ (∀ b, b ∈ extracted → isFileEntry b = true →
          Drive.fileOfBlob b ∈ filesAt (entryFolder b) r.1)
  ∧ (UniqueNames st.1 → UniqueNames r.1).
Proof.
  induction extracted as [|b extracted IH]; intros st; simpl.
  { unfold archiveFiles. simpl. rewrite !app_nil_r.
    repeat split; try done. by intros b ?%elem_of_nil. }
  destruct (extractBlob_step st b) as (S2 & S1 & Skeep & Snew & Suniq).
  destruct (IH (extractBlob st b)) as (I2 & I1 & Ikeep & Inew & Iuniq).
  rewrite archiveFiles_cons. repeat split.
  - by rewrite I2, S2, <- app_assoc.
  - by rewrite I1, S1, <- app_assoc.
  - intros p f Hf. by apply Ikeep, Skeep.
  - intros b' [->|Hin]%elem_of_cons Hfile; [|by apply Inew].
    apply Ikeep, Snew. unfold entryFiles. rewrite Hfile. by left.
  - intros Hu. by apply Iuniq, Suniq.
Qed.

Example extract_nested :
  extractIMSCC Sample.nestedBlobs Sample.tempFolder
  = Normal (Sample.nestedTree, [Sample.nestedFile]).
Proof. vm_compute. reflexivity. Qed.

(** X24. Extraction puts the file made for every entry that is not a
    directory marker and has a last segment into the folder its leading
    segments lead to, whatever name that file carries; the files of the
    tree are the files that were there plus exactly those, so that an
    entry ending in the separator adds nothing; and no folder ever gets
    two child folders of one name.  An archive of directory markers and
    the entry [a/b/c.xml] gives one file under the folders [a] and
    [b]. *)
Theorem extraction_builds_tree extracted tempFolder tree files :
  extractIMSCC extracted tempFolder = Normal (tree, files) →
  (∀ b, b ∈ extracted → isFileEntry b = true →
        Drive.fileOfBlob b ∈ filesAt (entryFolder b) tree)
  ∧ getAllFilesInFolder tree
    ≡ₚ getAllFilesInFolder tempFolder ++ archiveFiles extracted
  ∧ files = archiveFiles extracted
  ∧ (∀ st b, Js.endsWith (b_name b) "/" = true → extractBlob st b = st)
  ∧ (UniqueNames tempFolder → UniqueNames tree)
  ∧ extractIMSCC Sample.nestedBlobs Sample.tempFolder
    = Normal (Sample.nestedTree, [Sample.nestedFile]).
Proof.
  intros Hrun.
  assert (foldl extractBlob (tempFolder, []) extracted = (tree, files)) as Hloop.
  { unfold extractIMSCC in Hrun. destruct extracted; [done|]. by injection Hrun. }
  destruct (extract_loop extracted (tempFolder, [])) as (H2 & H1 & _ & Hnew & Huniq).
  rewrite Hloop in *. simpl in *.
  split; [exact Hnew|]. split; [exact H1|]. split; [exact H2|].
  split; [|split; [exact Huniq | apply extract_nested]].
  intros st b Hdir. unfold extractBlob. by rewrite Hdir.
Qed.

Lemma extraction_witness :
  Drive.fileOfBlob (mkBlob "a/b/c.xml" "<quiz/>") ∈ filesAt ["a"; "b"] Sample.nestedTree
  ∧ getAllFilesInFolder Sample.nestedTree ≡ₚ [Sample.nestedFile]
  ∧ UniqueNames Sample.nestedTree.
Proof.
  destruct (extraction_builds_tree
              Sample.nestedBlobs Sample.tempFolder Sample.nestedTree [Sample.nestedFile])
    as (Hleaf & Hfiles & _ & _ & Huniq & _); [vm_compute; reflexivity|].
  split; [|split].
  - apply (Hleaf (mkBlob "a/b/c.xml" "<quiz/>"));
      [do 2 constructor 2; constructor 1 | vm_compute; reflexivity].
  - exact Hfiles.
  - apply Huniq. constructor; [apply NoDup_nil_2 | constructor].
Defined.

(** C7. The archive with the directory markers [a/], [a/b/] and the
    entry [a/b/c.xml] is extracted to the folders [a] and [b] and one
    file in [b], but that file is named [a/b/c.xml], not [c.xml]: the
    last segment [extractIMSCC] computes is never given to the file.
    The tree has no file named [c.xml], and the program's own path
    lookup finds nothing at [a/b/c.xml]. *)
Theorem extraction_leaf_keeps_whole_path :
  extractIMSCC Sample.nestedBlobs Sample.tempFolder
  = Normal (Sample.nestedTree, [Sample.nestedFile])
  ∧ filesAt ["a"; "b"] Sample.nestedTree = [Sample.nestedFile]
  ∧ f_name Sample.nestedFile = "a/b/c.xml"
  ∧ (∀ f, FileIn f Sample.nestedTree → f_name f ≠ "c.xml")
  ∧ findFileByPath Sample.nestedTree "a/b/c.xml" = None.
Proof.
  split; [apply extract_nested|].
  repeat split; try (vm_compute; reflexivity).
  intros f Hf%getAllFilesInFolder_FileIn.
  vm_compute in Hf. apply list_elem_of_singleton in Hf as ->. discriminate.
Qed.

(** * Further properties *)

(** ** The list of archives *)

Lemma findIMSCCLoop_take iterator : ∀ count files,
  findIMSCCLoop iterator count files = files ++ take (50 - count) iterator.
Proof.
  induction iterator as [|file rest IH]; intros count files; simpl.
  - by rewrite take_nil, app_nil_r.
  - case_bool_decide as Hc.
    + rewrite IH, <- app_assoc. simpl.
      by replace (50 - count) with (S (50 - S count)) by lia.
    + replace (50 - count) with 0 by lia. by rewrite app_nil_r.
Qed.

(** X1. [findIMSCCFiles] returns the first fifty files of the search,
    in the order of the search, and so never more than fifty; when the
    search throws it returns none. *)
Theorem findIMSCCFiles_first_fifty :
  (∀ iterator, findIMSCCFiles (Normal iterator) = take 50 iterator)
  ∧ (∀ search, length (findIMSCCFiles search) ≤ 50)
  ∧ (∀ msg, findIMSCCFiles (Throw msg) = []).
Proof.
  assert (∀ iterator, findIMSCCFiles (Normal iterator) = take 50 iterator) as H.
  { intros iterator. unfold findIMSCCFiles. by rewrite findIMSCCLoop_take. }
  split; [done|]. split; [|done].
  intros [iterator|msg]; [|simpl; lia].
  rewrite H, length_take. lia.
Qed.

(** ** Quiz resources *)

(** X2. The two exact values tested first on the [type] of a resource
    add nothing: a resource type is accepted exactly when it contains
    [assessment], [qti] or [quiz]. *)
Theorem isQuizType_three_substrings type :
  isQuizType type
  = Js.includes type "assessment" || Js.includes type "qti" || Js.includes type "quiz".
Proof.
  unfold isQuizType.
  case_bool_decide as H1; [subst type; vm_compute; reflexivity|].
  case_bool_decide as H2; [subst type; vm_compute; reflexivity|].
  done.
Qed.

Lemma foldl_attachContent xmlParse getUuid tempFolder resources : ∀ st,
  let r := foldl (attachContent xmlParse getUuid tempFolder) st resources in
  quiz_info <$> r.1 = (quiz_info <$> st.1) ++ resources
  ∧ (Forall (λ q, is_Some (quiz_content q)) st.1 →
     Forall (λ q, is_Some (quiz_content q)) r.1).
Proof.
  induction resources as [|quiz resources IH]; intros st; simpl.
  - by rewrite app_nil_r.
  - destruct (IH (attachContent xmlParse getUuid tempFolder st quiz)) as [IH1 IH2].
    split.
    + rewrite IH1. unfold attachContent. simpl.
      by rewrite fmap_app, <- app_assoc.
    + intros Hst. apply IH2. unfold attachContent. simpl.
      apply Forall_app. split; [done|]. by repeat constructor.
Qed.

Lemma omap_formResult_length quizzes :
  Forall (λ q, is_Some (quiz_content q)) quizzes →
  length (omap formResult quizzes) = length quizzes.
Proof.
  induction 1 as [|quiz quizzes [content Hc] _ IH]; [done|].
  change (omap formResult (quiz :: quizzes))
    with (match formResult quiz with
          | Some y => y :: omap formResult quizzes
          | None => omap formResult quizzes
          end).
  unfold formResult at 1. rewrite Hc. simpl. by rewrite IH.
Qed.

(** X3. [findQuizzesInManifest] returns one quiz for each selected
    resource, in order, and each of them carries content, found or
    placeholder; [createGoogleForms] therefore makes exactly one form
    for each selected resource. *)
Theorem every_selected_resource_gets_a_form xmlParse getUuid root tempFolder n :
  let quizzes := (findQuizzesInManifest xmlParse getUuid root tempFolder n).1 in
  quiz_info <$> quizzes = quizResources root
  ∧ Forall (λ q, is_Some (quiz_content q)) quizzes
  ∧ length (createGoogleForms quizzes) = length (quizResources root).
Proof.
  simpl. unfold findQuizzesInManifest.
  destruct (foldl_attachContent xmlParse getUuid tempFolder (quizResources root) ([], n))
    as [H1 H2]. simpl in H1, H2. specialize (H2 (Forall_nil_2 _)).
  split; [exact H1|]. split; [exact H2|].
  rewrite createGoogleForms_rows, omap_formResult_length by exact H2.
  rewrite <- H1 at 2. by rewrite length_fmap.
Qed.

(** ** Quizzes without a body *)

(** X4. When none of the three strategies finds a file, when the file
    found is not XML, or when its root element is neither
    [questestinterop] nor [assessment], the content is the placeholder;
    the form made for a placeholder has no item, no description and is
    not a quiz, and its title is the title of the resource, or
    [Quiz <identifier>] when that is empty. *)
Theorem quiz_without_body_gives_empty_form xmlParse getUuid quiz tempFolder n :
  (resolveContent quiz tempFolder = None →
   findAndParseQuizContent xmlParse getUuid quiz tempFolder n = (placeholder quiz, n))
  ∧ (∀ f msg, resolveContent quiz tempFolder = Some f →
              xmlParse (f_data f) = Throw msg →
              findAndParseQuizContent xmlParse getUuid quiz tempFolder n
              = (placeholder quiz, n))
  ∧ (∀ f root, resolveContent quiz tempFolder = Some f →
               xmlParse (f_data f) = Normal root →
               ename root ≠ "questestinterop" → ename root ≠ "assessment" →
               findAndParseQuizContent xmlParse getUuid quiz tempFolder n
               = (placeholder quiz, n))
  ∧ createForm (r_identifier quiz) (placeholder quiz)
    = mkForm (if Js.truthy (r_title quiz) then r_title quiz
              else "Quiz " +:+ r_identifier quiz) "" [] false.
Proof.
  rewrite findAndParseQuizContent_resolves.
  split; [by intros ->|]. split; [by intros f msg -> ->|]. split; [|done].
  intros f root -> -> H1 H2. unfold parseQuizXml.
  by rewrite !bool_decide_eq_false_2.
Qed.

Lemma quiz_without_body_witness :
  findAndParseQuizContent Fixture.parseNothing Fixture.uuids
                          Fixture.lostResource Sample.tempFolder 0
  = (placeholder Fixture.lostResource, 0).
Proof.
  apply (quiz_without_body_gives_empty_form
           Fixture.parseNothing Fixture.uuids Fixture.lostResource Sample.tempFolder 0).
  vm_compute. reflexivity.
Defined.

(** ** Archives without files *)

Lemma foldl_extractBlob_markers extracted : ∀ st,
  (∀ b, b ∈ extracted → Js.endsWith (b_name b) "/" = true) →
  foldl extractBlob st extracted = st.
Proof.
  induction extracted as [|b extracted IH]; intros st H; simpl; [done|].
  unfold extractBlob at 2. rewrite (H b) by left.
  apply IH. intros b' Hb'. apply H. by right.
Qed.

(** X5. An archive that holds nothing but directory markers passes the
    check on the unzipped array: [extractIMSCC] reports no error,
    extracts no file and leaves the temporary folder as it was.  Only
    the empty array is refused. *)
Theorem directory_markers_only_extract_nothing extracted tempFolder :
  extracted ≠ [] →
  (∀ b, b ∈ extracted → Js.endsWith (b_name b) "/" = true) →
  extractIMSCC extracted tempFolder = Normal (tempFolder, [])
  ∧ ∃ msg, extractIMSCC [] tempFolder = Throw msg.
Proof.
  intros Hne Hdirs. split; [|by eexists].
  unfold extractIMSCC. destruct extracted as [|b extracted]; [done|].
  by rewrite foldl_extractBlob_markers.
Qed.

Lemma directory_markers_witness :
  extractIMSCC Fixture.markers Sample.tempFolder = Normal (Sample.tempFolder, []).
Proof.
  apply (directory_markers_only_extract_nothing Fixture.markers Sample.tempFolder).
  - discriminate.
  - intros b Hb. repeat (apply elem_of_cons in Hb as [->|Hb]; [vm_compute; reflexivity|]).
    by apply elem_of_nil in Hb.
Defined.

(** ** Which entries become files *)

Lemma startsWith_rev_app s : ∀ acc c,
  Js.startsWith (String.rev_app s acc) (String c EmptyString)
  = match lastChar s with
    | Some x => bool_decide (x = c)
    | None => Js.startsWith acc (String c EmptyString)
    end.
Proof.
  induction s as [|a s IH]; intros acc c; [done|].
  simpl. rewrite IH. destruct (lastChar s); [done|].
  simpl. destruct acc; by rewrite andb_true_r.
Qed.

Lemma endsWith_slash s :
  Js.endsWith s "/" = bool_decide (lastChar s = Some "/"%char).
Proof.
  unfold Js.endsWith, String.rev.
  change (String.rev_app "/" "") with (String "/"%char EmptyString).
  rewrite startsWith_rev_app. destruct (lastChar s) as [x|]; simpl.
  - apply bool_decide_ext. split; [by intros ->|by intros [= ->]].
  - done.
Qed.

Lemma split_cons sep s : ∃ seg segs, Js.split sep s = seg :: segs.
Proof.
  destruct s as [|c s]; simpl; [by eexists _, _|].
  case_bool_decide; [by eexists _, _|].
  destruct (Js.split sep s); by eexists _, _.
Qed.

Lemma last_split_is_Some sep s : is_Some (last (Js.split sep s)).
Proof.
  destruct (split_cons sep s) as (seg & segs & ->).
  rewrite last_cons. destruct (last segs); by eexists.
Qed.

Lemma last_split_empty s :
  last (Js.split "/" s) = Some "" → s = "" ∨ lastChar s = Some "/"%char.
Proof.
  induction s as [|c s IH]; intros H; [by left|]. right.
  simpl in H. simpl. case_bool_decide as Hc.
  - subst c. rewrite last_cons in H.
    destruct (last_split_is_Some "/" s) as [seg Hseg]. rewrite Hseg in H, IH.
    assert (seg = "") as -> by congruence.
    destruct (IH eq_refl) as [-> | ->]; done.
  - destruct (split_cons "/" s) as (seg & segs & Hs). rewrite Hs in H, IH.
    rewrite last_cons in H, IH. destruct (last segs) as [x|] eqn:Hlast; [|done].
    assert (x = "") as -> by congruence.
    destruct (IH eq_refl) as [-> | ->]; [|done].
    simpl in Hs. injection Hs as _ <-. done.
Qed.

Lemma isFileEntry_iff b :
  isFileEntry b = true ↔ b_name b ≠ "" ∧ Js.endsWith (b_name b) "/" = false.
Proof.
  unfold isFileEntry. rewrite andb_true_iff, negb_true_iff.
  destruct (last_split_is_Some "/" (b_name b)) as [seg Hseg]. rewrite Hseg.
  unfold Js.truthy. rewrite negb_true_iff, bool_decide_eq_false. split.
  - intros [Hdir Hne]. split; [|done]. intros Hname. rewrite Hname in Hseg.
    by injection Hseg as <-.
  - intros [Hname Hdir]. split; [done|]. intros ->.
    destruct (last_split_empty _ Hseg) as [?|Hlast]; [done|].
    rewrite endsWith_slash, bool_decide_eq_true_2 in Hdir; done.
Qed.

(** X6. The files [extractIMSCC] creates and returns are, in order,
    those of the entries whose name is not empty and does not end in
    the separator: the test on the last path segment only ever skips
    the entry with the empty name. *)
Theorem extracted_files_are_named_entries extracted tempFolder tree files :
  extractIMSCC extracted tempFolder = Normal (tree, files) →
  files
  = Drive.fileOfBlob
      <$> filter (λ b, b_name b ≠ "" ∧ Js.endsWith (b_name b) "/" = false) extracted.
Proof.
  intros Hrun.
  assert (foldl extractBlob (tempFolder, []) extracted = (tree, files)) as Hloop.
  { unfold extractIMSCC in Hrun. destruct extracted; [done|]. by injection Hrun. }
  destruct (extract_loop extracted (tempFolder, [])) as (H2 & _).
  rewrite Hloop in H2. simpl in H2. rewrite H2. unfold archiveFiles. f_equal.
  apply list_filter_iff. intros b. apply isFileEntry_iff.
Qed.

Lemma extracted_files_witness :
  [Fixture.manifestFile; Fixture.quizFile]
  = Drive.fileOfBlob
      <$> filter (λ b, b_name b ≠ "" ∧ Js.endsWith (b_name b) "/" = false)
                 Fixture.courseBlobs.
Proof.
  apply (extracted_files_are_named_entries
           Fixture.courseBlobs Sample.tempFolder Fixture.courseTree).
  vm_compute. reflexivity.
Defined.

(** ** Where extraction puts the files, and what a path lookup finds *)

Lemma Forall_updateFirst_named (P : Folder → Prop) name f ds :
  (∀ d, d_name d = name → P d → P (f d)) →
  Forall P ds → Forall P (Drive.updateFirst name f ds).
Proof.
  intros Hf. induction 1 as [|d ds Hd Hds IH]; simpl; [done|].
  case_bool_decide; constructor; auto.
Qed.

Lemma folderSegments_cons name dirs :
  folderSegments (name :: dirs)
  = if negb (Js.truthy name) then folderSegments dirs
    else name :: folderSegments dirs.
Proof.
  unfold folderSegments. rewrite filter_cons.
  by destruct (Js.truthy name).
Qed.

Section Placement.

Variable g : Folder → Folder.
Variable extra : list File.
Hypothesis g_name : ∀ d, d_name (g d) = d_name d.
Hypothesis g_folders : ∀ d, Drive.getFolders (g d) = Drive.getFolders d.
Hypothesis g_files : ∀ d, Drive.getFiles (g d) = Drive.getFiles d ++ extra.

(** Adding, at the end of the segments, files whose names lead there
    keeps every file in its place. *)
Lemma atPath_placed dirs : ∀ pre d,
  (∀ f, f ∈ extra →
        folderSegments (leadingParts (Js.split "/" (f_name f)))
        = pre ++ folderSegments dirs) →
  WellPlaced pre d → WellPlaced pre (atPath g dirs d).
Proof using g_name g_folders g_files.
  induction dirs as [|name dirs IH]; intros pre d Hextra Hd; simpl.
  - specialize (g_folders d). specialize (g_files d).
    destruct (g d) as [n fs subs], Hd as [pre n' fs' subs' H1 H2].
    simpl in g_folders, g_files. subst. constructor; [|done].
    intros f [Hf|Hf]%elem_of_app; [by apply H1|].
    rewrite (Hextra f Hf). unfold folderSegments. simpl. by rewrite app_nil_r.
  - rewrite folderSegments_cons in Hextra.
    destruct (negb (Js.truthy name)); [by apply IH|].
    assert (∀ x, d_name x = name → WellPlaced (pre ++ [d_name x]) x →
                 WellPlaced (pre ++ [d_name (atPath g dirs x)]) (atPath g dirs x))
      as Hstep.
    { intros x Hx Hwp. rewrite (atPath_name g g_name), Hx. apply IH.
      - intros f Hf. rewrite (Hextra f Hf), <- app_assoc. done.
      - by rewrite <- Hx. }
    destruct Hd as [pre n fs subs Hfiles Hsubs]. unfold Drive.getFoldersByName. simpl.
    destruct (filter _ subs) as [|x xs]; constructor; try done.
    + apply Forall_app. split; [done|]. constructor; [|done].
      apply (Hstep (Drive.emptyFolder name)); [done|].
      constructor; [by intros f ?%elem_of_nil|done].
    + by apply Forall_updateFirst_named.
Qed.

End Placement.

Lemma walkFolders_placed dirs : ∀ pre d x,
  WellPlaced pre d → walkFolders dirs d = Some x →
  WellPlaced (pre ++ folderSegments dirs) x.
Proof.
  induction dirs as [|name dirs IH]; intros pre d x Hd; simpl.
  - intros [= <-]. unfold folderSegments. simpl. by rewrite app_nil_r.
  - rewrite folderSegments_cons.
    destruct (negb (Js.truthy name)); [by apply IH|].
    destruct (Drive.getFoldersByName name d) as [|next rest] eqn:Hnext; [done|].
    intros Hwalk. replace (pre ++ name :: folderSegments dirs)
      with ((pre ++ [name]) ++ folderSegments dirs) by (by rewrite <- app_assoc).
    apply (IH _ next); [|done].
    assert (next ∈ Drive.getFoldersByName name d) as [Hname Hin]%list_elem_of_filter
      by (rewrite Hnext; left).
    destruct Hd as [pre n fs subs _ Hsubs]. simpl in Hin.
    rewrite Forall_forall in Hsubs. rewrite <- Hname. by apply Hsubs.
Qed.

Lemma walkFolders_no_segment dirs d :
  folderSegments dirs = [] → walkFolders dirs d = Some d.
Proof.
  induction dirs as [|name dirs IH]; [done|].
  rewrite folderSegments_cons. simpl.
  destruct (negb (Js.truthy name)); [done|discriminate].
Qed.

(** No segment of a split path holds the separator. *)
Lemma split_segments_plain s :
  Forall (λ seg, Js.split "/" seg = [seg]) (Js.split "/" s).
Proof.
  induction s as [|c s IH]; simpl; [by repeat constructor|].
  case_bool_decide as Hc; [by constructor|].
  destruct (Js.split "/" s) as [|seg segs]; simpl.
  - constructor; [|done]. simpl. by rewrite bool_decide_eq_false_2.
  - inversion IH as [|? ? Hseg Hsegs]; subst. constructor; [|done].
    simpl. by rewrite bool_decide_eq_false_2, Hseg.
Qed.

Lemma leadingParts_take parts :
  take (length parts - 1) parts = leadingParts parts.
Proof.
  unfold leadingParts. case_bool_decide as Hlen; [done|].
  by replace (length parts - 1) with 0 by lia.
Qed.

(** In a tree where every file is in its place, a path lookup only ever
    returns a file of the root folder, for a path without folder
    segment. *)
Lemma findFileByPath_placed tree path f :
  WellPlaced [] tree →
  findFileByPath tree path = Some f →
  folderSegments (leadingParts (Js.split "/" path)) = []
  ∧ f ∈ Drive.getFiles tree
  ∧ last (Js.split "/" path) = Some (f_name f).
Proof.
  intros Htree. unfold findFileByPath.
  destruct (negb (Js.truthy path)); [done|].
  rewrite leadingParts_take.
  destruct (walkFolders _ tree) as [d|] eqn:Hwalk; [|done].
  destruct (last (Js.split "/" path)) as [fileName|] eqn:Hlast; [|done].
  destruct (Js.truthy fileName); [|done].
  intros Hhead.
  assert (f ∈ Drive.getFilesByName fileName d) as [Hname Hin]%list_elem_of_filter.
  { destruct (Drive.getFilesByName fileName d); [done|]. injection Hhead as ->. left. }
  pose proof (walkFolders_placed _ _ _ _ Htree Hwalk) as Hd. simpl in Hd.
  assert (folderSegments (leadingParts (Js.split "/" path)) = []) as Hsegs.
  { destruct Hd as [pre n fs subs Hfiles _]. simpl in Hin.
    rewrite <- (Hfiles f Hin), Hname.
    pose proof (split_segments_plain path) as Hplain.
    rewrite Forall_forall in Hplain.
    rewrite (Hplain fileName) by (by apply last_Some_elem_of). done. }
  rewrite (walkFolders_no_segment _ _ Hsegs) in Hwalk. injection Hwalk as <-.
  by rewrite Hname.
Qed.

Lemma extractBlob_placed st b :
  WellPlaced [] st.1 → WellPlaced [] (extractBlob st b).1.
Proof.
  intros Hst. unfold extractBlob.
  destruct (Js.endsWith (b_name b) "/"); [done|].
  destruct (last (Js.split "/" (b_name b))) as [segment|]; simpl;
    [destruct (Js.truthy segment); simpl|].
  - rewrite createFileIn_ensureFolders.
    apply (atPath_placed _ [Drive.fileOfBlob b]); try done.
    by intros f ->%list_elem_of_singleton.
  - rewrite ensureFolders_atPath.
    apply (atPath_placed id []); try done.
    + intros d. by rewrite app_nil_r.
    + by intros f ?%elem_of_nil.
  - rewrite ensureFolders_atPath.
    apply (atPath_placed id []); try done.
    + intros d. by rewrite app_nil_r.
    + by intros f ?%elem_of_nil.
Qed.

Lemma extract_loop_placed extracted : ∀ st,
  WellPlaced [] st.1 → WellPlaced [] (foldl extractBlob st extracted).1.
Proof.
  induction extracted as [|b extracted IH]; intros st Hst; simpl; [done|].
  by apply IH, extractBlob_placed.
Qed.

(** What is known of the tree extracted into a fresh temporary folder. *)
Lemma extract_fresh extracted name tree files :
  extractIMSCC extracted (Drive.emptyFolder name) = Normal (tree, files) →
  WellPlaced [] tree
  ∧ files = archiveFiles extracted
  ∧ (∀ f, f ∈ Drive.getFiles tree → f ∈ files)
  ∧ (∀ b, b ∈ extracted → isFileEntry b = true →
          Drive.fileOfBlob b ∈ filesAt (entryFolder b) tree).
Proof.
  intros Hrun.
  assert (foldl extractBlob (Drive.emptyFolder name, []) extracted = (tree, files))
    as Hloop.
  { unfold extractIMSCC in Hrun. destruct extracted; [done|]. by injection Hrun. }
  pose proof (extract_loop_placed extracted (Drive.emptyFolder name, [])) as Hplaced.
  destruct (extract_loop extracted (Drive.emptyFolder name, []))
    as (H2 & H1 & _ & Hnew & _).
  rewrite Hloop in *. simpl in *.
  split; [apply Hplaced; constructor; [by intros f ?%elem_of_nil|done]|].
  split; [done|]. split; [|done].
  intros f Hf. rewrite H2, <- H1. destruct tree as [n fs subs].
  rewrite getAllFilesInFolder_unfold. apply elem_of_app. by left.
Qed.

(** X7. In the tree extracted into a fresh temporary folder, a path
    lookup can only return a file of the root folder, created for an
    entry without folder segment and named like the last segment asked
    for; for any path that goes through a folder the lookup returns
    null, since the file created for an entry keeps the whole entry path
    as its name. *)
Theorem extracted_tree_lookup_is_root_only extracted name tree files path :
  extractIMSCC extracted (Drive.emptyFolder name) = Normal (tree, files) →
  (∀ f, findFileByPath tree path = Some f →
        folderSegments (leadingParts (Js.split "/" path)) = []
        ∧ f ∈ Drive.getFiles tree ∧ f ∈ files
        ∧ last (Js.split "/" path) = Some (f_name f))
  ∧ (folderSegments (leadingParts (Js.split "/" path)) ≠ [] →
     findFileByPath tree path = None).
Proof.
  intros (Hplaced & _ & Hroot & _)%extract_fresh.
  assert (∀ f, findFileByPath tree path = Some f →
               folderSegments (leadingParts (Js.split "/" path)) = []
               ∧ f ∈ Drive.getFiles tree ∧ f ∈ files
               ∧ last (Js.split "/" path) = Some (f_name f)) as H.
  { intros f Hf. destruct (findFileByPath_placed _ _ _ Hplaced Hf) as (H1 & H2 & H3).
    auto. }
  split; [done|]. intros Hsegs.
  destruct (findFileByPath tree path) as [f|] eqn:Hf; [|done].
  by destruct (H f eq_refl) as [? _].
Qed.

Lemma extracted_tree_lookup_witness :
  findFileByPath Fixture.courseTree "quiz/quiz1.xml" = None.
Proof.
  destruct (extracted_tree_lookup_is_root_only
              Fixture.courseBlobs "IMSCC_Temp" Fixture.courseTree
              [Fixture.manifestFile; Fixture.quizFile] "quiz/quiz1.xml")
    as [_ H]; [vm_compute; reflexivity|].
  apply H. vm_compute. discriminate.
Defined.

(** X8. An entry without separator in its name is found again: after
    extraction into a fresh temporary folder, looking up the name of
    such a file entry returns an extracted file of that name. *)
Theorem root_entry_is_found_by_name extracted name tree files b :
  extractIMSCC extracted (Drive.emptyFolder name) = Normal (tree, files) →
  b ∈ extracted →
  isFileEntry b = true →
  Js.split "/" (b_name b) = [b_name b] →
  ∃ f, findFileByPath tree (b_name b) = Some f
       ∧ f_name f = b_name b ∧ f ∈ files.
Proof.
  intros (_ & _ & Hroot & Hnew)%extract_fresh Hb Hfile Hsplit.
  specialize (Hnew b Hb Hfile).
  unfold entryFolder, filesAt in Hnew. rewrite Hsplit in Hnew. simpl in Hnew.
  apply isFileEntry_iff in Hfile as [Hname _].
  unfold findFileByPath, Js.truthy. rewrite Hsplit. simpl.
  rewrite !bool_decide_eq_false_2 by done. simpl.
  destruct (Drive.getFilesByName (b_name b) tree) as [|f fs] eqn:Hfiles.
  - exfalso.
    by apply (filter_nil_not_elem_of _ _ (Drive.fileOfBlob b) Hfiles).
  - assert (f ∈ Drive.getFilesByName (b_name b) tree) as [Hf Hin]%list_elem_of_filter
      by (rewrite Hfiles; left).
    exists f. auto.
Qed.

Lemma root_entry_witness :
  ∃ f, findFileByPath Fixture.courseTree "imsmanifest.xml" = Some f
       ∧ f_name f = "imsmanifest.xml"
       ∧ f ∈ [Fixture.manifestFile; Fixture.quizFile].
Proof.
  apply (root_entry_is_found_by_name
           Fixture.courseBlobs "IMSCC_Temp" Fixture.courseTree
           [Fixture.manifestFile; Fixture.quizFile]
           (mkBlob "imsmanifest.xml" "<manifest/>"));
    [vm_compute; reflexivity | constructor 1 | vm_compute; reflexivity
    | vm_compute; reflexivity].
Defined.

(** X9. For a resource whose [href] goes through a folder (or is empty)
    and whose declared [.xml] files all go through a folder, the first
    two strategies fail on the extracted tree: the quiz body is the one
    the whole-tree search settles on, and the fallback notice is
    written. *)
Theorem nested_bodies_are_found_by_content_only extracted name tree files quiz :
  extractIMSCC extracted (Drive.emptyFolder name) = Normal (tree, files) →
  r_href quiz = "" ∨ folderSegments (leadingParts (Js.split "/" (r_href quiz))) ≠ [] →
  (∀ p, p ∈ r_files quiz → Js.endsWith p ".xml" = true →
        folderSegments (leadingParts (Js.split "/" p)) ≠ []) →
  (findQuizFile quiz tree).1 = byContent quiz tree
  ∧ fallbackNotice ∈ (findQuizFile quiz tree).2.
Proof.
  intros (Hplaced & _)%extract_fresh Hhref Hdeclared.
  assert (∀ p, folderSegments (leadingParts (Js.split "/" p)) ≠ [] →
               findFileByPath tree p = None) as Hnone.
  { intros p Hp. destruct (findFileByPath tree p) as [f|] eqn:Hf; [|done].
    by destruct (findFileByPath_placed _ _ _ Hplaced Hf) as [? _]. }
  pose proof (findQuizFile_cases quiz tree) as H. simpl in H.
  assert (byHref quiz tree = None) as Hh.
  { unfold byHref. destruct Hhref as [->|Hhref]; [done|by apply Hnone]. }
  assert (byDeclaredFiles quiz tree = None) as Hd.
  { unfold byDeclaredFiles. rewrite omap_all_none; [done|].
    intros p [Hxml Hin]%list_elem_of_filter. by apply Hnone, Hdeclared. }
  by rewrite Hh, Hd in H.
Qed.

Lemma nested_bodies_witness :
  (findQuizFile Fixture.nestedResource Fixture.courseTree).1 = Some Fixture.quizFile
  ∧ fallbackNotice ∈ (findQuizFile Fixture.nestedResource Fixture.courseTree).2.
Proof.
  apply (nested_bodies_are_found_by_content_only
           Fixture.courseBlobs "IMSCC_Temp" Fixture.courseTree
           [Fixture.manifestFile; Fixture.quizFile] Fixture.nestedResource).
  - vm_compute. reflexivity.
  - right. vm_compute. discriminate.
  - intros p ->%list_elem_of_singleton _. vm_compute. discriminate.
Defined.





(** X10. After extraction into a fresh temporary folder, the manifest
    lookup raises the not-found error exactly when no entry of the
    archive is named [imsmanifest.xml]: an entry such as
    [course/imsmanifest.xml] does not count. *)
Theorem manifest_found_iff_root_entry xmlParse extracted name tree files :
  extractIMSCC extracted (Drive.emptyFolder name) = Normal (tree, files) →
  findAndParseManifest xmlParse tree = Throw manifestNotFound
  ↔ ∀ b, b ∈ extracted → b_name b ≠ "imsmanifest.xml".
Proof.
  intros (_ & Hfiles & Hroot & Hnew)%extract_fresh.
  unfold findAndParseManifest, Drive.getFilesByName.
  destruct (filter _ (Drive.getFiles tree)) as [|m ms] eqn:Hfilter.
  - split; [|done]. intros _ b Hb Hname.
    assert (isFileEntry b = true) as Hfile
      by (unfold isFileEntry; rewrite Hname; vm_compute; reflexivity).
    specialize (Hnew b Hb Hfile). unfold entryFolder, filesAt in Hnew.
    rewrite Hname in Hnew. simpl in Hnew.
    by apply (filter_nil_not_elem_of _ _ (Drive.fileOfBlob b) Hfilter).
  - assert (m ∈ filter (λ f, f_name f = "imsmanifest.xml") (Drive.getFiles tree))
      as [Hname Hin]%list_elem_of_filter by (rewrite Hfilter; left).
    split.
    + destruct (xmlParse (f_data m)); [done|by intros [= ?]].
    + intros Hnone. apply Hroot in Hin. rewrite Hfiles in Hin.
      apply list_elem_of_fmap in Hin as (b & -> & [_ Hb]%list_elem_of_filter).
      by destruct (Hnone b Hb).
Qed.

Lemma manifest_found_witness :
  findAndParseManifest Fixture.parseNothing Sample.extractedCourse
  = Throw manifestNotFound
  ↔ ∀ b, b ∈ Sample.courseBlobs → b_name b ≠ "imsmanifest.xml".
Proof.
  apply (manifest_found_iff_root_entry
           Fixture.parseNothing Sample.courseBlobs "IMSCC_Temp" Sample.extractedCourse
           [mkFile "course/imsmanifest.xml" "<manifest/>"]).
  vm_compute. reflexivity.
Defined.

(** ** Path lookups in any tree *)

(** X11. A leading separator makes no difference to a path lookup. *)
Theorem findFileByPath_leading_separator rootFolder path :
  findFileByPath rootFolder (String "/" path) = findFileByPath rootFolder path.
Proof.
  unfold findFileByPath at 1. simpl.
  destruct (split_cons "/" path) as (seg & segs & Hsplit).
  assert (length (Js.split "/" path) - 0 = S (length (Js.split "/" path) - 1)) as ->
    by (rewrite Hsplit; simpl; lia).
  simpl. rewrite last_cons.
  destruct (last_split_is_Some "/" path) as [fileName Hlast]. rewrite Hlast.
  unfold findFileByPath. rewrite Hlast.
  destruct (Js.truthy path) eqn:Hpath; simpl; [done|].
  assert (path = "") as -> by (unfold Js.truthy in Hpath; by case_bool_decide).
  simpl in Hlast. injection Hlast as <-.
  by destruct (walkFolders _ rootFolder).
Qed.

Lemma walkFolders_files dirs : ∀ d x f,
  walkFolders dirs d = Some x → f ∈ Drive.getFiles x → f ∈ getAllFilesInFolder d.
Proof.
  induction dirs as [|name dirs IH]; intros d x f; simpl.
  - intros [= <-] Hf. destruct d as [n fs subs]. rewrite getAllFilesInFolder_unfold.
    apply elem_of_app. by left.
  - destruct (negb (Js.truthy name)); [by apply IH|].
    destruct (Drive.getFoldersByName name d) as [|next rest] eqn:Hnext; [done|].
    intros Hwalk Hf.
    assert (next ∈ Drive.getFoldersByName name d) as [_ Hin]%list_elem_of_filter
      by (rewrite Hnext; left).
    destruct d as [n fs subs]. rewrite getAllFilesInFolder_unfold.
    apply elem_of_app. right. apply list_elem_of_In, in_flat_map.
    exists next. split; [by apply list_elem_of_In|].
    apply list_elem_of_In. by apply (IH next x).
Qed.

(** X12. Whatever the tree, a file returned by a path lookup is one of
    the files the whole-tree listing returns, and its name is the last
    segment of the path, which is not empty. *)
Theorem findFileByPath_is_listed rootFolder path f :
  findFileByPath rootFolder path = Some f →
  f ∈ getAllFilesInFolder rootFolder
  ∧ last (Js.split "/" path) = Some (f_name f)
  ∧ f_name f ≠ "".
Proof.
  unfold findFileByPath.
  destruct (negb (Js.truthy path)); [done|].
  destruct (walkFolders _ rootFolder) as [d|] eqn:Hwalk; [|done].
  destruct (last (Js.split "/" path)) as [fileName|]; [|done].
  destruct (Js.truthy fileName) eqn:Htruthy; [|done].
  intros Hhead.
  assert (f ∈ Drive.getFilesByName fileName d) as [Hname Hin]%list_elem_of_filter.
  { destruct (Drive.getFilesByName fileName d); [done|]. injection Hhead as ->. left. }
  split; [by apply (walkFolders_files _ _ _ _ Hwalk)|].
  rewrite Hname. split; [done|].
  intros ->. by vm_compute in Htruthy.
Qed.

Lemma findFileByPath_listed_witness :
  Sample.quiz1File ∈ getAllFilesInFolder Sample.quizTree
  ∧ last (Js.split "/" "quiz1.xml") = Some (f_name Sample.quiz1File)
  ∧ f_name Sample.quiz1File ≠ "".
Proof.
  apply (findFileByPath_is_listed Sample.quizTree "quiz1.xml" Sample.quiz1File).
  vm_compute. reflexivity.
Defined.

(** ** What every normalised question carries *)

Lemma v1_steps_keep_head item q :
  let head := λ q : Question, (q_id q, q_title q, q_points q) in
  head (v1Choices item (v1Text item (v1Type item q))) = head q.
Proof.
  intros head.
  assert (head (v1Type item q) = head q) as H1.
  { unfold v1Type.
    destruct (Xml.getChild "itemmetadata" item) as [im|]; [|done].
    destruct (Xml.getChild "qtimetadata" im) as [md|]; [|done].
    apply (foldl_preserves v1TypeField head). intros s a. unfold v1TypeField.
    destruct (Xml.getChildText "fieldlabel" a), (Xml.getChildText "fieldentry" a);
      try done.
    by destruct (_ && _). }
  assert (∀ q, head (v1Text item q) = head q) as H2.
  { intros q'. unfold v1Text.
    destruct (Xml.getChild "presentation" item) as [p|]; [|done].
    destruct (Xml.getChild "material" p) as [m|]; [|done].
    by destruct (Xml.getChild "mattext" m). }
  assert (∀ q, head (v1Choices item q) = head q) as H3.
  { intros q'. unfold v1Choices.
    destruct (Xml.getChild "presentation" item) as [p|]; [|done].
    destruct (Xml.getChild "render_choice" p) as [r|]; [|done].
    apply (foldl_preserves v1ChoiceLabel head). intros s l. unfold v1ChoiceLabel.
    destruct (Xml.getAttribute "ident" l); [|done].
    destruct (Xml.getChild "material" l) as [m|]; [|done].
    by destruct (Xml.getChild "mattext" m). }
  by rewrite H3, H2, H1.
Qed.

Lemma v1Body_head item id q :
  v1Body item id = Normal q →
  q_id q = id ∧ q_title q = default "" (Xml.getAttribute "title" item) ∧ q_points q = 1.
Proof.
  unfold v1Body.
  set (q0 := mkQuestion _ _ _ _ _ _ _).
  pose proof (v1_steps_keep_head item q0) as Hhead. simpl in Hhead.
  set (q3 := v1Choices item (v1Text item (v1Type item q0))) in *.
  assert (q_correctAnswer q3 = v1Answer (q_type q3) []) as Hans.
  { unfold q3. rewrite (proj2 (v1Choices_fields _ _)), (proj2 (v1Text_fields _ _)).
    by rewrite v1Type_answer, v1Answer_nil. }
  unfold v1CorrectAnswer.
  destruct (Xml.getChild "resprocessing" item) as [rp|].
  - rewrite (forOf_v1Respcondition _ q3 [] Hans). intros [= <-]. simpl.
    by injection Hhead as -> -> ->.
  - intros [= <-]. by injection Hhead as -> -> ->.
Qed.

Lemma v2_steps_keep_head item q :
  let head := λ q : Question, (q_id q, q_title q, q_points q) in
  head (v2CorrectAnswer item (v2ItemBody item q)) = head q.
Proof.
  intros head.
  assert (∀ q, head (v2CorrectAnswer item q) = head q) as H1.
  { intros q'. unfold v2CorrectAnswer.
    destruct (Xml.getChild "responseDeclaration" item) as [rd|]; [|done].
    destruct (Xml.getChild "correctResponse" rd) as [cr|]; [|done].
    by destruct (Xml.getChildren "value" cr) as [|? [|? ?]]. }
  rewrite H1. unfold v2ItemBody.
  destruct (Xml.getChild "itemBody" item) as [body|]; [|done].
  assert (∀ q, head (v2Choices body q) = head q) as H2.
  { intros q'. unfold v2Choices.
    destruct (Xml.getChild "choiceInteraction" body); [|done].
    apply (foldl_preserves v2SimpleChoice head). intros s c. unfold v2SimpleChoice.
    by destruct (Xml.getAttribute "identifier" c). }
  rewrite H2. unfold v2Text, v2Type.
  destruct (Xml.getChild "prompt" body); by repeat case_bool_decide.
Qed.

(** X13. A question returned by either normaliser is worth one point,
    has the [title] attribute of the item as its title (the empty
    string without one), and has as identifier the [ident], respectively
    [identifier], attribute of the item or, without one, the identifier
    the host generated at that call. *)
Theorem normalised_question_header getUuid item n q :
  ((parseQtiv1Item getUuid item n).1 = Some q →
   q_points q = 1
   ∧ q_title q = default "" (Xml.getAttribute "title" item)
   ∧ Some (q_id q) = match Xml.getAttribute "ident" item with
                     | Some v => Some v
                     | None => getUuid n
                     end)
  ∧ ((parseQtiv2Item getUuid item n).1 = Some q →
     q_points q = 1
     ∧ q_title q = default "" (Xml.getAttribute "title" item)
     ∧ Some (q_id q) = match Xml.getAttribute "identifier" item with
                       | Some v => Some v
                       | None => getUuid n
                       end).
Proof.
  split.
  - unfold parseQtiv1Item, idOrUuid, Utilities_getUuid.
    destruct (Xml.getAttribute "ident" item) as [i|]; simpl.
    + destruct (v1Body item i) as [q'|] eqn:Hbody; simpl; [|done].
      intros [= <-]. by destruct (v1Body_head _ _ _ Hbody) as (-> & -> & ->).
    + destruct (getUuid n) as [u|]; simpl; [|done].
      destruct (v1Body item u) as [q'|] eqn:Hbody; simpl; [|done].
      intros [= <-]. by destruct (v1Body_head _ _ _ Hbody) as (-> & -> & ->).
  - unfold parseQtiv2Item, idOrUuid, Utilities_getUuid, v2Body.
    destruct (Xml.getAttribute "identifier" item) as [i|]; simpl.
    + intros [= <-].
      pose proof (v2_steps_keep_head item
                    (mkQuestion i (default "" (Xml.getAttribute "title" item))
                                "" "" [] ANull 1)) as H.
      simpl in H. by injection H as -> -> ->.
    + destruct (getUuid n) as [u|]; simpl; [|done].
      intros [= <-].
      pose proof (v2_steps_keep_head item
                    (mkQuestion u (default "" (Xml.getAttribute "title" item))
                                "" "" [] ANull 1)) as H.
      simpl in H. by injection H as -> -> ->.
Qed.

Lemma normalised_question_witness :
  q_points Sample.choiceQuestion = 1
  ∧ q_title Sample.choiceQuestion = ""
  ∧ Some (q_id Sample.choiceQuestion) = Some "q1".
Proof.
  destruct (normalised_question_header
              Sample.noUuid Sample.choiceItem 0 Sample.choiceQuestion) as [H _].
  apply H. vm_compute. reflexivity.
Defined.

(** ** Calls of the identifier service *)

Lemma parseQtiv1Item_counter getUuid item n :
  (parseQtiv1Item getUuid item n).2
  = match Xml.getAttribute "ident" item with Some _ => n | None => S n end.
Proof.
  unfold parseQtiv1Item, idOrUuid, Utilities_getUuid.
  by destruct (Xml.getAttribute "ident" item).
Qed.

Lemma collectV1_counter getUuid items : ∀ n,
  (collectV1 getUuid items n).2
  = n + length (filter (λ item, Xml.getAttribute "ident" item = None) items).
Proof.
  induction items as [|item items IH]; intros n; simpl; [lia|].
  rewrite IH, parseQtiv1Item_counter, filter_cons.
  destruct (Xml.getAttribute "ident" item); simpl; lia.
Qed.

Lemma collectV1_length getUuid items : ∀ n,
  length (collectV1 getUuid items n).1 ≤ length items
  ∧ ((∀ k, is_Some (getUuid k)) →
     length (collectV1 getUuid items n).1 = length items).
Proof.
  induction items as [|item items IH]; intros n; simpl; [done|].
  destruct (IH (parseQtiv1Item getUuid item n).2) as [IH1 IH2].
  destruct (parseQtiv1Item getUuid item n).1 as [q|] eqn:Hq; simpl.
  - split; [lia|]. intros Huuid. by rewrite IH2.
  - split; [lia|]. intros Huuid. apply parseQtiv1Item_null in Hq as [_ Hnone].
    destruct (Huuid n) as [u Hu]. congruence.
Qed.

Lemma parseQtiv1Quiz_collect getUuid root quiz n assessment :
  Xml.getChild "assessment" root = Some assessment →
  (parseQtiv1Quiz getUuid root quiz n).2
  = (collectV1 getUuid (legacyItems assessment) n).2.
Proof.
  intros Ha. unfold parseQtiv1Quiz, legacyItems. rewrite Ha. simpl.
  by rewrite foldl_v1PushSection, foldl_v1PushItem, collectV1_app.
Qed.

(** X14. Parsing a legacy quiz asks the host for an identifier once for
    each item without [ident] attribute and never otherwise; the quiz
    never holds more questions than the assessment has items, and holds
    one for each item when the identifier service does not fail. *)
Theorem legacy_quiz_identifier_requests getUuid root quiz n assessment :
  Xml.getChild "assessment" root = Some assessment →
  (parseQtiv1Quiz getUuid root quiz n).2
  = n + length (filter (λ item, Xml.getAttribute "ident" item = None)
                       (legacyItems assessment))
  ∧ length (qc_questions (parseQtiv1Quiz getUuid root quiz n).1)
    ≤ length (legacyItems assessment)
  ∧ ((∀ k, is_Some (getUuid k)) →
     length (qc_questions (parseQtiv1Quiz getUuid root quiz n).1)
     = length (legacyItems assessment)).
Proof.
  intros Ha.
  rewrite (parseQtiv1Quiz_collect _ _ _ _ _ Ha), (parseQtiv1Quiz_questions _ _ _ _ _ Ha).
  split; [apply collectV1_counter|]. apply collectV1_length.
Qed.

Lemma legacy_quiz_identifier_witness :
  (parseQtiv1Quiz Fixture.uuids Sample.mixedRoot Sample.resource 0).2 = 1
  ∧ length (qc_questions
              (parseQtiv1Quiz Fixture.uuids Sample.mixedRoot Sample.resource 0).1) = 3.
Proof.
  destruct (legacy_quiz_identifier_requests
              Fixture.uuids Sample.mixedRoot Sample.resource 0 Sample.mixedAssessment)
    as (Hcount & _ & Hall); [vm_compute; reflexivity|].
  split; [exact Hcount|]. apply Hall. intros k. by eexists.
Defined.

(** ** The items of a form *)

Lemma formItemFor_set_text text question :
  formItemFor (set_text text question) = formItemFor question.
Proof. done. Qed.

Lemma addQuestionToForm_item form question :
  form_isQuiz form = false →
  (addQuestionToForm form question).1 = FormApp.addItem (itemOf question) form.
Proof.
  intros Hquiz. unfold addQuestionToForm, itemOf. rewrite Hquiz. simpl.
  rewrite formItemFor_set_text.
  destruct (negb (Js.truthy (q_text question)) || Js.isBlank (q_text question)).
  - rewrite formItemFor_set_text. by destruct (formItemFor question).
  - by destruct (formItemFor question).
Qed.

Lemma addQuestions_items questions : ∀ form seen,
  form_isQuiz form = false →
  form_items
    (foldl (λ st question,
              let '(form', question') := addQuestionToForm st.1 question in
              (form', st.2 ++ [question']))
           (form, seen) questions).1
  = form_items form ++ (itemOf <$> questions).
Proof.
  induction questions as [|qn questions IH]; intros form seen Hquiz; simpl.
  - by rewrite app_nil_r.
  - pose proof (addQuestionToForm_item form qn Hquiz) as Hitem.
    pose proof (addQuestionToForm_keeps form qn) as [Hkeep _].
    destruct (addQuestionToForm form qn) as [form' qn']. simpl in *.
    rewrite IH by (by rewrite Hkeep). rewrite Hitem. simpl.
    by rewrite <- app_assoc.
Qed.

Lemma title_or_fallback_not_empty t c prefix i :
  (if Js.truthy t then t else String c prefix +:+ i) ≠ "".
Proof.
  unfold Js.truthy. case_bool_decide as Ht; simpl; done.
Qed.

Lemma itemOf_title question : fi_title (itemOf question) ≠ "".
Proof.
  unfold itemOf. simpl.
  destruct (Js.truthy (q_text question)) eqn:Htext; simpl.
  - destruct (Js.isBlank (q_text question)); [apply title_or_fallback_not_empty|].
    intros Hempty. by rewrite Hempty in Htext.
  - apply title_or_fallback_not_empty.
Qed.

Lemma addQuestions_title questions : ∀ form seen,
  form_title
    (foldl (λ st question,
              let '(form', question') := addQuestionToForm st.1 question in
              (form', st.2 ++ [question']))
           (form, seen) questions).1
  = form_title form.
Proof.
  induction questions as [|qn questions IH]; intros form seen; simpl; [done|].
  assert (form_title (addQuestionToForm form qn).1 = form_title form) as Hq.
  { unfold addQuestionToForm.
    destruct (negb _ || _); by destruct (formItemFor _). }
  destruct (addQuestionToForm form qn) as [form' qn']. simpl in *.
  by rewrite IH.
Qed.

(** A text made of a no-break space and a space is blank, as it is for
    [trim]; a text with a letter, or a zero-width space alone, is not. *)
Example isBlank_no_break_space :
  Js.isBlank (String (ascii_of_nat 194) (String (ascii_of_nat 160) " ")) = true
  ∧ Js.isBlank " x " = false
  ∧ Js.isBlank (String (ascii_of_nat 226)
                  (String (ascii_of_nat 128) (String (ascii_of_nat 139) ""))) = false.
Proof. by vm_compute. Qed.

(** X15. The form made for a quiz holds one item for each question, in
    the order of the questions; no item has an empty title, and none is
    given points, since the form becomes a quiz only after the items
    have been added; the title of the form is not empty either. *)
Theorem form_items_follow_questions identifier content :
  form_items (createForm identifier content) = itemOf <$> qc_questions content
  ∧ Forall (λ item, fi_points item = None ∧ fi_title item ≠ "")
           (form_items (createForm identifier content))
  ∧ form_title (createForm identifier content) ≠ "".
Proof.
  assert (form_items (createForm identifier content) = itemOf <$> qc_questions content
          ∧ form_title (createForm identifier content) ≠ "") as [Hitems Htitle].
  { unfold createForm, addQuestions.
    set (form0 := if Js.truthy (qc_description content) then _ else _).
    assert (form_isQuiz form0 = false ∧ form_items form0 = []
            ∧ form_title form0 ≠ "") as (Hquiz & Hnil & Ht).
    { unfold form0.
      destruct (Js.truthy (qc_description content)); simpl;
        (split; [done|]; split; [done|]); apply title_or_fallback_not_empty. }
    pose proof (addQuestions_items (qc_questions content) form0 [] Hquiz) as Hitems.
    pose proof (addQuestions_title (qc_questions content) form0 []) as Hsame.
    destruct (foldl _ (form0, []) (qc_questions content)) as [form questions].
    simpl in *. rewrite Hnil in Hitems. simpl in Hitems.
    destruct (existsb hasAnswer questions); simpl; by rewrite ?Hsame. }
  split; [done|]. split; [|done].
  rewrite Hitems, Forall_fmap. apply Forall_forall. intros qn _. simpl.
  split; [done|apply itemOf_title].
Qed.

(** ** From the quiz body to the choices marked correct *)

Lemma itemOf_widget question :
  fi_kind (itemOf question) = (formItemFor question).1
  ∧ fi_choices (itemOf question) = (formItemFor question).2.
Proof. unfold itemOf. simpl. by rewrite formItemFor_set_text. Qed.

(** X16. For a legacy item with choices, the form item is a
    multiple-choice item whose choice is marked correct exactly when its
    identifier is the last [varequal] value, if the type is
    [multiple_choice_question]; and a checkbox item whose choices are
    marked correct exactly when their identifier is among the
    [varequal] values, if the type is [multiple_answers_question]. *)
Theorem legacy_choices_marked_from_varequals getUuid item n q :
  (parseQtiv1Item getUuid item n).1 = Some q →
  q_choices q ≠ [] →
  (v1MetadataType item = "multiple_choice_question" →
   fi_kind (itemOf q) = MultipleChoiceItem
   ∧ fi_choices (itemOf q)
     = (λ c, mkFormChoice (c_text c)
               (bool_decide (last (v1VarequalValues item) = Some (c_id c))))
       <$> q_choices q)
  ∧ (v1MetadataType item = "multiple_answers_question" →
     fi_kind (itemOf q) = CheckboxItem
     ∧ fi_choices (itemOf q)
       = (λ c, mkFormChoice (c_text c)
                 (bool_decide (c_id c ∈ v1VarequalValues item)))
         <$> q_choices q).
Proof.
  intros Hq Hchoices. apply parseQtiv1Item_question in Hq as [Hty Hans].
  destruct (itemOf_widget q) as [-> ->]. unfold formItemFor.
  destruct (q_choices q) as [|c cs] eqn:Hcs; [done|].
  split; intros Htype; rewrite Htype in Hty, Hans; rewrite Hty.
  - rewrite bool_decide_eq_true_2 by done. cbn [fst snd].
    split; [done|]. apply list_fmap_ext. intros _ x _. f_equal.
    rewrite Hans. unfold v1Answer. rewrite bool_decide_eq_true_2 by done.
    destruct (last (v1VarequalValues item)) as [v|]; simpl.
    + apply bool_decide_ext. split; [by intros ->|by intros [= ->]].
    + done.
  - rewrite bool_decide_eq_false_2 by done.
    rewrite bool_decide_eq_true_2 by done. cbn [fst snd].
    split; [done|]. apply list_fmap_ext. intros _ x _. f_equal.
    rewrite Hans. unfold v1Answer. rewrite bool_decide_eq_false_2 by done.
    rewrite bool_decide_eq_true_2 by done.
    by destruct (v1VarequalValues item) as [|v vs].
Qed.

Lemma legacy_choices_marked_witness :
  fi_choices (itemOf Sample.answersQuestion)
  = [mkFormChoice "first" true; mkFormChoice "second" false;
     mkFormChoice "third" true].
Proof.
  destruct (legacy_choices_marked_from_varequals
              Sample.noUuid Sample.answersItem 0 Sample.answersQuestion)
    as [_ H]; [vm_compute; reflexivity | discriminate |].
  destruct H as [_ ->]; [vm_compute; reflexivity|].
  vm_compute. reflexivity.
Defined.

(** When no identifier can equal the answer, and none is in it, no
    choice of the widget is marked correct. *)
Lemma formItemFor_unmarked question :
  (∀ id, isAnswer id (q_correctAnswer question) = false) →
  (q_type question = "multiple_answers_question" →
   ∀ id, inAnswers id (q_correctAnswer question) = false) →
  Forall (λ c, fc_correct c = false) (formItemFor question).2.
Proof.
  intros Hone Hmany. unfold formItemFor.
  case_bool_decide as H1; cbn [fst snd].
  { destruct (q_choices question) as [|c cs]; [by repeat constructor|].
    apply Forall_fmap, Forall_forall. intros x _. apply Hone. }
  case_bool_decide as H2; cbn [fst snd].
  { destruct (q_choices question) as [|c cs]; [by repeat constructor|].
    apply Forall_fmap, Forall_forall. intros x _. by apply Hmany. }
  repeat case_bool_decide; cbn [fst snd]; repeat constructor; apply Hone.
Qed.

(** X17. A legacy item whose type is neither [multiple_choice_question]
    nor [multiple_answers_question], a [true_false_question] for
    instance, never contributes a correct answer: it does not make the
    form a quiz, and none of the choices of its form item is marked
    correct. *)
Theorem legacy_other_types_are_unmarked getUuid item n q :
  (parseQtiv1Item getUuid item n).1 = Some q →
  v1MetadataType item ≠ "multiple_choice_question" →
  v1MetadataType item ≠ "multiple_answers_question" →
  hasAnswer q = false
  ∧ Forall (λ c, fc_correct c = false) (fi_choices (itemOf q)).
Proof.
  intros Hq H1 H2. apply parseQtiv1Item_question in Hq as [Hty Hans].
  assert (q_correctAnswer q = ANull) as Hnull.
  { rewrite Hans. unfold v1Answer. by rewrite !bool_decide_eq_false_2. }
  split; [unfold hasAnswer; by rewrite Hnull|].
  rewrite (proj2 (itemOf_widget q)).
  apply formItemFor_unmarked; by rewrite Hnull.
Qed.

Lemma legacy_other_types_witness :
  hasAnswer Fixture.trueFalseQuestion = false
  ∧ Forall (λ c, fc_correct c = false) (fi_choices (itemOf Fixture.trueFalseQuestion)).
Proof.
  apply (legacy_other_types_are_unmarked
           Sample.noUuid Fixture.trueFalseItem 0 Fixture.trueFalseQuestion);
    [vm_compute; reflexivity | vm_compute; discriminate | vm_compute; discriminate].
Defined.

(** X18. A modern item whose correct response has several values makes
    the form a quiz, but none of the choices of its form item is marked
    correct: the answer is a list, the item is never a checkbox item,
    and a list equals no choice identifier. *)
Theorem modern_several_values_mark_nothing getUuid item n q values :
  (parseQtiv2Item getUuid item n).1 = Some q →
  v2CorrectValues item = Some values →
  1 < length values →
  hasAnswer q = true
  ∧ fi_kind (itemOf q) ≠ CheckboxItem
  ∧ Forall (λ c, fc_correct c = false) (fi_choices (itemOf q)).
Proof.
  intros Hq Hvalues Hlen. apply parseQtiv2Item_question in Hq as [Hty Hans].
  rewrite Hvalues in Hans.
  destruct values as [|v [|w values]]; simpl in Hlen; [lia|lia|].
  assert (q_type q ≠ "multiple_answers_question") as Hnot.
  { rewrite Hty. pose proof (v2InferredType_values item) as Hin.
    intros Heq. rewrite Heq, !elem_of_cons, elem_of_nil in Hin.
    intuition discriminate. }
  split; [unfold hasAnswer; by rewrite Hans|].
  destruct (itemOf_widget q) as [-> ->]. split.
  - unfold formItemFor. rewrite (bool_decide_eq_false_2 _ Hnot).
    by repeat case_bool_decide.
  - apply formItemFor_unmarked; [by rewrite Hans|done].
Qed.

Lemma modern_several_values_witness :
  hasAnswer (Sample.modernQuestion (AArray ["A"; "B"])) = true
  ∧ fi_kind (itemOf (Sample.modernQuestion (AArray ["A"; "B"]))) ≠ CheckboxItem
  ∧ Forall (λ c, fc_correct c = false)
           (fi_choices (itemOf (Sample.modernQuestion (AArray ["A"; "B"])))).
Proof.
  apply (modern_several_values_mark_nothing
           Sample.noUuid (Sample.modernItem ["A"; "B"]) 0
           (Sample.modernQuestion (AArray ["A"; "B"]))
           (Xml.leaf "value" <$> ["A"; "B"]));
    [vm_compute; reflexivity | vm_compute; reflexivity | simpl; lia].
Defined.

(** ** The alternative extraction *)

Lemma foldl_altExtractBlob extracted : ∀ st,
  let new := Drive.fileOfBlob
               <$> filter (λ b, Js.endsWith (b_name b) "/" = false) extracted in
  foldl altExtractBlob st extracted
  = (mkFolder (d_name st.1) (Drive.getFiles st.1 ++ new) (Drive.getFolders st.1),
     st.2 ++ new).
Proof.
  induction extracted as [|b extracted IH]; intros [tree out]; simpl.
  - rewrite !app_nil_r. by destruct tree.
  - rewrite IH. unfold altExtractBlob. rewrite filter_cons. simpl.
    destruct (Js.endsWith (b_name b) "/"); simpl; [done|].
    by rewrite <- !app_assoc.
Qed.

Lemma filter_named_entries (extracted : list Blob) :
  (∀ b, b ∈ extracted → b_name b ≠ "") →
  filter (λ b, isFileEntry b = true) extracted
  = filter (λ b, Js.endsWith (b_name b) "/" = false) extracted.
Proof.
  induction extracted as [|b extracted IH]; intros Hnamed; [done|].
  rewrite !filter_cons, IH by (intros b' Hb'; apply Hnamed; by right).
  destruct (decide (isFileEntry b = true)) as [Hfile|Hfile].
  - apply isFileEntry_iff in Hfile as [_ Hdir]. by rewrite decide_True.
  - rewrite decide_False; [done|]. intros Hdir. apply Hfile, isFileEntry_iff.
    split; [apply Hnamed; left|done].
Qed.

(** X19. [alternativeExtractIMSCC] creates no folder: every entry that
    is not a directory marker becomes a file of the temporary folder
    itself, in the order of the archive.  For an archive without
    empty-named entry, the files it returns are those [extractIMSCC]
    returns. *)
Theorem alternative_extraction_is_flat extracted tempFolder :
  (alternativeExtractIMSCC extracted tempFolder).2
  = Drive.fileOfBlob <$> filter (λ b, Js.endsWith (b_name b) "/" = false) extracted
  ∧ Drive.getFiles (alternativeExtractIMSCC extracted tempFolder).1
    = Drive.getFiles tempFolder ++ (alternativeExtractIMSCC extracted tempFolder).2
  ∧ Drive.getFolders (alternativeExtractIMSCC extracted tempFolder).1
    = Drive.getFolders tempFolder
  ∧ (∀ tree files,
       extractIMSCC extracted tempFolder = Normal (tree, files) →
       (∀ b, b ∈ extracted → b_name b ≠ "") →
       files = (alternativeExtractIMSCC extracted tempFolder).2).
Proof.
  unfold alternativeExtractIMSCC. rewrite foldl_altExtractBlob. simpl.
  split; [done|]. split; [done|]. split; [done|].
  intros tree files Hrun Hnamed.
  assert (foldl extractBlob (tempFolder, []) extracted = (tree, files)) as Hloop.
  { unfold extractIMSCC in Hrun. destruct extracted; [done|]. by injection Hrun. }
  destruct (extract_loop extracted (tempFolder, [])) as (H2 & _).
  rewrite Hloop in H2. simpl in H2. rewrite H2. unfold archiveFiles.
  by rewrite filter_named_entries.
Qed.

Lemma alternative_extraction_witness :
  [Fixture.manifestFile; Fixture.quizFile]
  = (alternativeExtractIMSCC Fixture.courseBlobs Sample.tempFolder).2.
Proof.
  destruct (alternative_extraction_is_flat Fixture.courseBlobs Sample.tempFolder)
    as (_ & _ & _ & H).
  apply (H Fixture.courseTree); [vm_compute; reflexivity|].
  intros b Hb. repeat (apply elem_of_cons in Hb as [->|Hb]; [discriminate|]).
  by apply elem_of_nil in Hb.
Defined.

(** ** The spreadsheet *)

Lemma writeForm_rows toLocaleString sheet form :
  writeForm toLocaleString sheet form
  = mkSheet (sh_rows sheet ++ [formRow toLocaleString form])
            (sh_bold sheet) (sh_frozen sheet).
Proof.
  unfold writeForm, SheetApp.setFormula, SheetApp.appendRow, SheetApp.getLastRow.
  simpl. rewrite length_app. simpl.
  replace (pred (length (sh_rows sheet) + 1)) with (length (sh_rows sheet) + 0) by lia.
  by rewrite !alter_app_r.
Qed.

Lemma foldl_writeForm toLocaleString forms : ∀ sheet,
  foldl (writeForm toLocaleString) sheet forms
  = mkSheet (sh_rows sheet ++ (formRow toLocaleString <$> forms))
            (sh_bold sheet) (sh_frozen sheet).
Proof.
  induction forms as [|form forms IH]; intros sheet; simpl.
  - rewrite app_nil_r. by destruct sheet.
  - rewrite IH, writeForm_rows. simpl. by rewrite <- app_assoc.
Qed.

Lemma updateSpreadsheet_result toLocaleString formData sheet :
  updateSpreadsheetWithFormInfo toLocaleString formData sheet
  = match sh_rows sheet with
    | [] => mkSheet ((CText <$> SPREADSHEET_HEADERS)
                       :: (formRow toLocaleString <$> formData))
                    (sh_bold sheet ++ [1]) 1
    | _ => mkSheet (sh_rows sheet ++ (formRow toLocaleString <$> formData))
                   (sh_bold sheet) (sh_frozen sheet)
    end.
Proof.
  unfold updateSpreadsheetWithFormInfo. rewrite foldl_writeForm.
  unfold writeHeader, SheetApp.getLastRow.
  by destruct sheet as [[|row rows] bold frozen].
Qed.

(** X20. [updateSpreadsheetWithFormInfo] leaves the rows already in the
    sheet as they are and appends one row for each form, in order, whose
    second and third cells are the two hyperlink formulas; the header
    row is written before them exactly when the sheet was empty, and
    only then is the first row set in bold and frozen. *)
Theorem spreadsheet_rows_appended toLocaleString formData sheet :
  updateSpreadsheetWithFormInfo toLocaleString formData sheet
  = match sh_rows sheet with
    | [] => mkSheet ((CText <$> SPREADSHEET_HEADERS)
                       :: (formRow toLocaleString <$> formData))
                    (sh_bold sheet ++ [1]) 1
    | _ => mkSheet (sh_rows sheet ++ (formRow toLocaleString <$> formData))
                   (sh_bold sheet) (sh_frozen sheet)
    end.
Proof. apply updateSpreadsheet_result. Qed.

(** X21. Two updates in a row amount to one update with both lists of
    forms: the second update never writes a second header. *)
Theorem spreadsheet_updates_compose toLocaleString first second sheet :
  updateSpreadsheetWithFormInfo toLocaleString second
    (updateSpreadsheetWithFormInfo toLocaleString first sheet)
  = updateSpreadsheetWithFormInfo toLocaleString (first ++ second) sheet.
Proof.
  rewrite !updateSpreadsheet_result.
  destruct (sh_rows sheet) as [|row rows] eqn:Hrows; simpl.
  - by rewrite fmap_app.
  - rewrite fmap_app, <- app_assoc. simpl. by rewrite app_assoc.
Qed.

(** ** Documents and namespaces *)

Lemma getChildren_other_namespace name root :
  (∀ c, c ∈ Xml.childElements root → ens c ≠ "") →
  Xml.getChildren name root = [].
Proof.
  intros Hns. unfold Xml.getChildren.
  induction (Xml.childElements root) as [|c cs IH]; [done|].
  rewrite filter_cons, decide_False.
  - apply IH. intros c' Hc'. apply Hns. by right.
  - intros [_ Hc]. by apply (Hns c); [left|].
Qed.

(** X22. The parsers look for child elements without namespace only:
    when every child element of the root of a quiz body is in a
    namespace, the legacy parser returns the placeholder (the title of
    the resource, no question) and the modern parser returns no
    question; neither asks for an identifier. *)
Theorem namespaced_body_yields_no_question getUuid root quiz n :
  (∀ c, c ∈ Xml.childElements root → ens c ≠ "") →
  parseQtiv1Quiz getUuid root quiz n = (placeholder quiz, n)
  ∧ qc_questions (parseQtiv2Quiz getUuid root quiz n).1 = []
  ∧ (parseQtiv2Quiz getUuid root quiz n).2 = n.
Proof.
  intros Hns. unfold parseQtiv1Quiz, parseQtiv2Quiz, Xml.getChild.
  by rewrite !getChildren_other_namespace.
Qed.

Lemma namespaced_body_witness :
  parseQtiv1Quiz Fixture.uuids Fixture.namespacedRoot Sample.resource 0
  = (placeholder Sample.resource, 0).
Proof.
  apply (namespaced_body_yields_no_question
           Fixture.uuids Fixture.namespacedRoot Sample.resource 0).
  intros c ->%list_elem_of_singleton. discriminate.
Defined.

(** X23. The manifest is read in the IMS content-packaging namespace
    only: when no child element of its root is in that namespace,
    [findQuizzesInManifest] returns no quiz, whatever the manifest
    declares, and no form is made. *)
Theorem manifest_without_namespace_yields_no_quiz
        xmlParse getUuid root tempFolder n :
  (∀ c, c ∈ Xml.childElements root → ens c ≠ imsNS) →
  findQuizzesInManifest xmlParse getUuid root tempFolder n = ([], n)
  ∧ createGoogleForms (findQuizzesInManifest xmlParse getUuid root tempFolder n).1 = [].
Proof.
  intros Hns.
  assert (quizResources root = []) as Hnone.
  { unfold quizResources, XmlNs.getChild, XmlNs.getChildren.
    induction (Xml.childElements root) as [|c cs IH]; [done|].
    rewrite filter_cons, decide_False.
    - apply IH. intros c' Hc'. apply Hns. by right.
    - intros [_ Hc]. by apply (Hns c); [left|]. }
  unfold findQuizzesInManifest. by rewrite Hnone.
Qed.

Lemma manifest_without_namespace_witness :
  findQuizzesInManifest Fixture.parseNothing Fixture.uuids
                        Fixture.plainManifest Sample.tempFolder 0
  = ([], 0).
Proof.
  apply (manifest_without_namespace_yields_no_quiz
           Fixture.parseNothing Fixture.uuids Fixture.plainManifest Sample.tempFolder 0).
  intros c ->%list_elem_of_singleton. discriminate.
Defined.
